(** * coin_backtesting: the two backtest engines, embedded and verified

    Source files:
    - [src/portfolio_backtest.py]: periodic rebalancing engine
      (module [Rebalance] below);
    - [src/strategy_backtest.py]: moving-average crossover engine
      (module [Strategy] below).

    Conventions of the embedding.
    - Numbers.  Python floats are idealised as exact rationals ([Qc],
      canonical fractions with Leibniz equality).  Rounding is not modelled;
      [x / 0] is [0] in [Qc] where numpy yields [inf] or [nan], so statements
      that depend on a quotient are read for a non-zero divisor.
    - NaN.  The bars delivered by the exchange carry finite numbers; a NaN
      only arises from alignment ([pct_change], [join], [reindex], [rolling])
      and is modelled as [None] in an [option Qc] cell.
    - Time.  A timestamp is the number of milliseconds since the epoch, as
      the exchange delivers it ([pd.to_datetime(..., unit='ms')]).
    - Tables.  A DataFrame is the list of its rows in index order; a column
      that is written by position is a list updated with stdpp's insert.
      Row labels of a price series are unique (the PriceSeries invariant), so
      a label lookup returns the first matching row.
    - Dictionaries ([self.data], [self.weights], [self.positions]) are
      [gmap string _]; a failing subscript (KeyError, IndexError) makes the
      enclosing function return [None].
    - Object state that survives a call ([self.weights], [self.positions],
      [self.data]) is threaded explicitly: a method takes the state it reads
      and returns the state it leaves.  [self.weights] is rewritten by the
      rebalancing loop, [self.positions] by the ledger, and [self.data] by
      [fetch_data] (one entry per delivered symbol) and, in the signal
      engine, by [apply_strategy] (every configured entry, in place).
    - The exchange.  The client is a parameter: [exchange symbol] is the list
      of bars [fetch_ohlcv] delivers for the symbol, [None] when the call
      raises. *)

From Stdlib Require Import ZArith QArith Qcanon Lqa Lia.
From stdpp Require Import numbers base option list sorting gmap strings fin_maps.

Local Open Scope Qc_scope.
Set Warnings "-clear-no-such-hyp".

(** ** Numerals *)

Definition qz (n : Z) : Qc := Qc_of_Z n.
Definition qf (a : Z) (b : positive) : Qc := Q2Qc (a # b).

(** [np.isnan] on an aligned cell. *)
Definition isnan (x : option Qc) : bool :=
  match x with None => true | Some _ => false end.

(** [Series.fillna(0)] on one cell. *)
Definition fillna0 (x : option Qc) : Qc := default 0 x.

(** Python's [sum(...)]: a left fold that starts from [0]. *)
Definition py_sum (xs : list Qc) : Qc := fold_left Qcplus xs 0.

(** ** Calendar: what the engines use of pandas' date handling *)

Module Calendar.

Definition day_ms : Z := 86400000.

(** Day of the month (1..31) of the civil date that lies [days] days after
    1970-01-01 in the proleptic Gregorian calendar. *)
Definition day_of_month (days : Z) : Z :=
  let z := (days + 719468)%Z in
  let era := (z / 146097)%Z in
  let doe := (z - era * 146097)%Z in
  let yoe := ((doe - doe / 1460 + doe / 36524 - doe / 146096) / 365)%Z in
  let doy := (doe - (365 * yoe + yoe / 4 - yoe / 100))%Z in
  let mp := ((5 * doy + 2) / 153)%Z in
  (doy - (153 * mp + 2) / 5 + 1)%Z.

(** [pd.date_range(start, end, freq="D")]: start, start + 1 day, ... up to
    and including the last one that is not after [end]. *)
Fixpoint date_range_from (n : nat) (start : Z) : list Z :=
  match n with
  | O => []
  | S n' => start :: date_range_from n' (start + day_ms)%Z
  end.

Definition date_range (start_date end_date : Z) : list Z :=
  if (end_date <? start_date)%Z then []
  else date_range_from (Z.to_nat ((end_date - start_date) / day_ms + 1)) start_date.

(** Day numbers [d0, d0 + 1, ..., d1]. *)
Definition days_between (d0 d1 : Z) : list Z :=
  map (fun k => (d0 + Z.of_nat k)%Z) (seq 0 (Z.to_nat (d1 - d0 + 1))).

(** [df.resample("1MS").first().index]: the month-start labels (midnight of
    the first day of a month) of every monthly bin from the month of the
    first row to the month of the last row. *)
Definition resample_MS_index (index : list Z) : list Z :=
  match index with
  | [] => []
  | first :: _ =>
      let d_first := (first / day_ms)%Z in
      let d_last := (List.last index first / day_ms)%Z in
      let d0 := (d_first - (day_of_month d_first - 1))%Z in
      map (fun d => (d * day_ms)%Z)
          (filter (fun d => day_of_month d = 1%Z) (days_between d0 d_last))
  end.

(** [Timedelta.days] of [t1 - t0]: whole days, rounded towards minus
    infinity. *)
Definition timedelta_days (t1 t0 : Z) : Z := ((t1 - t0) / day_ms)%Z.

End Calendar.

(** ** Price bars *)

Record PriceBar := mkBar {
  timestamp : Z;
  open : Qc;
  high : Qc;
  low : Qc;
  close : Qc;
  volume : Qc
}.

#[global] Instance PriceBar_eq_dec : EqDecision PriceBar.
Proof. solve_decision. Defined.

(** [date in df.index] *)
Definition in_index (date : Z) (df : list PriceBar) : bool :=
  bool_decide (date ∈ map timestamp df).

(** [df.loc[date]]: the row labelled [date]. *)
Definition loc_bar (date : Z) (df : list PriceBar) : option PriceBar :=
  List.find (fun b => bool_decide (timestamp b = date)) df.

(** ** Series operations shared by both engines *)

Definition Qc_max (x y : Qc) : Qc := if decide (x < y) then y else x.
Definition Qc_min (x y : Qc) : Qc := if decide (y < x) then y else x.

(** [Series.cummax()] *)
Fixpoint cummax_from (peak : Qc) (values : list Qc) : list Qc :=
  match values with
  | [] => []
  | v :: rest => let peak' := Qc_max peak v in peak' :: cummax_from peak' rest
  end.

Definition cummax (values : list Qc) : list Qc :=
  match values with
  | [] => []
  | v :: rest => v :: cummax_from v rest
  end.

(** [Series.min()]; [None] is the NaN pandas returns for an empty series. *)
Definition series_min (xs : list Qc) : option Qc :=
  match xs with
  | [] => None
  | x :: rest => Some (fold_left Qc_min rest x)
  end.

(** The body both [calculate_mdd] methods share:
    [peak = V.cummax(); drawdown = (V - peak) / peak; drawdown.min() * 100]. *)
Definition max_drawdown (values : list Qc) : option Qc :=
  let peak := cummax values in
  let drawdown := zip_with (fun v p => (v - p) / p) values peak in
  m ← series_min drawdown; Some (m * qz 100).

(** [Series.ffill()] *)
Fixpoint ffill_from (carry : option Qc) (col : list (option Qc)) : list (option Qc) :=
  match col with
  | [] => []
  | x :: rest =>
      let v := match x with Some _ => x | None => carry end in
      v :: ffill_from v rest
  end.

Definition ffill (col : list (option Qc)) : list (option Qc) := ffill_from None col.

(** [series.loc[date]] for a column [col] laid over the labels [index]. *)
Definition loc_cell {A} (date : Z) (index : list Z) (col : list A) : option A :=
  snd <$> List.find (fun p => bool_decide (p.1 = date)) (zip index col).

(** [df[(df['timestamp'] >= start_date) & (df['timestamp'] <= end_date)]] *)
Definition date_filter (start_date end_date : Z) (df : list PriceBar)
    : list PriceBar :=
  filter (λ b, (start_date ≤ timestamp b)%Z ∧ (timestamp b ≤ end_date)%Z) df.

(** * The rebalancing engine, [src/portfolio_backtest.py] *)

Module Rebalance.

(** The fields of [PortfolioBacktester.__init__] the simulation reads.  The
    rebalance rule is the default [rebalance_period="1M"], which the
    constructor rewrites to the pandas rule ["1MS"]; [start_date] and
    [end_date] are set ([pd.date_range] raises without them). *)
Record Config := mkConfig {
  symbols : list string;
  initial_balance : Qc;
  start_date : Z;
  end_date : Z;
  trading_fee : Qc;
  slippage : Qc
}.

(** [fetch_data], lines 25-42.  An empty delivery raises [ValueError];
    either exception is caught and reported, and the loop goes on with the
    next symbol, so the entry of [self.data] stays what it was.  A delivered
    table is cut to the configured date range and stored under the symbol. *)
Definition fetch_one (exchange : string -> option (list PriceBar)) (cfg : Config)
    (data : gmap string (list PriceBar)) (symbol : string)
    : gmap string (list PriceBar) :=
  match exchange symbol with
  | Some ohlcv =>
      if bool_decide (ohlcv = []) then data
      else
        <[symbol := date_filter (start_date cfg) (end_date cfg) ohlcv]> data
  | None => data
  end.

Definition fetch_data (exchange : string -> option (list PriceBar)) (cfg : Config)
    (data : gmap string (list PriceBar)) : gmap string (list PriceBar) :=
  fold_left (fetch_one exchange cfg) (symbols cfg) data.

(** What [calculate_portfolio_returns] returns: the daily calendar, one
    return column per instrument, and the blended column. *)
Record ReturnsFrame := mkReturns {
  index : list Z;
  return_columns : list (string * list Qc);
  Portfolio_Return : list Qc
}.

#[global] Instance ReturnsFrame_eq_dec : EqDecision ReturnsFrame.
Proof. solve_decision. Defined.

(** What [run_backtest] returns: the same table with [Portfolio_Value]. *)
Record PortfolioFrame := mkPortfolio {
  returns : ReturnsFrame;
  Portfolio_Value : list Qc
}.

#[global] Instance PortfolioFrame_eq_dec : EqDecision PortfolioFrame.
Proof. solve_decision. Defined.

(** [df["close"].pct_change()]: NaN on the first row, then
    [close[t] / close[t-1] - 1]. *)
Fixpoint pct_change_from (prev : Qc) (df : list PriceBar) : list (Z * option Qc) :=
  match df with
  | [] => []
  | b :: rest =>
      (timestamp b, Some (close b / prev - 1)) :: pct_change_from (close b) rest
  end.

Definition pct_change (df : list PriceBar) : list (Z * option Qc) :=
  match df with
  | [] => []
  | b :: rest => (timestamp b, None) :: pct_change_from (close b) rest
  end.

(** One cell of [portfolio_df.join(df[f"{symbol}_return"], how="left")]:
    the return labelled [date], NaN when the instrument has no row there. *)
Definition joined_cell (ret : list (Z * option Qc)) (date : Z) : option Qc :=
  p ← List.find (fun p => bool_decide (p.1 = date)) ret; p.2.

(** The instrument's column after the join and [fillna(0)]. *)
Definition return_column (df : list PriceBar) (index : list Z) : list Qc :=
  map (fun date => fillna0 (joined_cell (pct_change df) date)) index.

(** The loop of lines 50-53.  [self.data[symbol]] raises for an instrument
    that was not fetched; [join] raises when the column name is already in
    the table, that is when a symbol is listed twice. *)
Fixpoint join_returns (data : gmap string (list PriceBar)) (index : list Z)
    (syms : list string) (cols : list (string * list Qc))
    : option (list (string * list Qc)) :=
  match syms with
  | [] => Some cols
  | symbol :: rest =>
      df ← data !! symbol;
      if bool_decide (symbol ∈ cols.*1) then None
      else join_returns data index rest (cols ++ [(symbol, return_column df index)])
  end.

(** [portfolio_df[f"{symbol}_return"]] *)
Definition column (cols : list (string * list Qc)) (symbol : string) : option (list Qc) :=
  snd <$> List.find (fun c => bool_decide (c.1 = symbol)) cols.

(** [sum(series_1, series_2, ...)]: the scalar [0] plus each series in turn,
    element by element. *)
Definition sum_columns (n : nat) (terms : list (list Qc)) : list Qc :=
  fold_left (zip_with Qcplus) terms (replicate n 0).

Definition calculate_portfolio_returns (cfg : Config)
    (data : gmap string (list PriceBar)) (weights : gmap string Qc)
    : option ReturnsFrame :=
  let index := Calendar.date_range (start_date cfg) (end_date cfg) in
  cols ← join_returns data index (symbols cfg) [];
  terms ← mapM (fun symbol =>
                  col ← column cols symbol;
                  w ← weights !! symbol;
                  Some (map (fun r => r * w) col)) (symbols cfg);
  Some {| index := index;
          return_columns := cols;
          Portfolio_Return := sum_columns (length index) terms |}.

(** [apply_trading_fees]: [V -= (trading_fee + slippage) * V] on every row. *)
Definition apply_trading_fees (cfg : Config) (values : list Qc) : list Qc :=
  map (fun v => v - (trading_fee cfg + slippage cfg) * v) values.

(** [self.data[symbol]["close"].reindex(portfolio_df.index)] *)
Definition reindex_close (df : list PriceBar) (index : list Z) : list (option Qc) :=
  map (fun date => close <$> loc_bar date df) index.

(** One entry of the [current_prices] comprehension of line 91; the inner
    option is the NaN of a price that cannot be forward-filled yet. *)
Definition current_price (data : gmap string (list PriceBar)) (index : list Z)
    (date : Z) (symbol : string) : option (option Qc) :=
  df ← data !! symbol;
  loc_cell date index (ffill (reindex_close df index)).

Definition current_prices (cfg : Config) (data : gmap string (list PriceBar))
    (index : list Z) (date : Z) : option (list (string * option Qc)) :=
  mapM (fun symbol => p ← current_price data index date symbol; Some (symbol, p))
       (symbols cfg).

(** [current_prices[symbol]], read after the NaN test. *)
Definition price_of (prices : list (string * option Qc)) (symbol : string) : option Qc :=
  e ← List.find (fun e => bool_decide (e.1 = symbol)) prices; e.2.

(** Line 95. *)
Definition total_value (prices : list (string * option Qc))
    (weights : gmap string Qc) (syms : list string) : option Qc :=
  terms ← mapM (fun symbol =>
                  p ← price_of prices symbol;
                  w ← weights !! symbol;
                  Some (p * w)) syms;
  Some (py_sum terms).

(** Lines 96-97: [self.weights] is rewritten in place, one symbol at a time. *)
Fixpoint update_weights (prices : list (string * option Qc)) (total : Qc)
    (syms : list string) (weights : gmap string Qc) : option (gmap string Qc) :=
  match syms with
  | [] => Some weights
  | symbol :: rest =>
      p ← price_of prices symbol;
      w ← weights !! symbol;
      update_weights prices total rest (<[symbol := p * w / total]> weights)
  end.

(** The state the loop of [run_backtest] mutates: [self.weights] and the
    [Portfolio_Value] column. *)
Record LoopState := mkLoop {
  st_weights : gmap string Qc;
  st_values : list Qc
}.

#[global] Instance LoopState_eq_dec : EqDecision LoopState.
Proof. solve_decision. Defined.

(** Line 99. *)
Definition set_value (i : nat) (daily_return : Qc) (values : list Qc)
    : option (list Qc) :=
  prev ← values !! (i - 1)%nat;
  Some (<[i := prev * (1 + daily_return)]> values).

(** Lines 87-99, one iteration.  The [continue] of line 93 leaves the
    iteration with the state as it is. *)
Definition loop_body (cfg : Config) (data : gmap string (list PriceBar))
    (frame : ReturnsFrame) (rebalance_dates : list Z)
    (st : LoopState) (i : nat) : option LoopState :=
  date ← index frame !! i;
  daily_return ← Portfolio_Return frame !! i;
  if bool_decide (date ∈ rebalance_dates) then
    prices ← current_prices cfg data (index frame) date;
    if existsb isnan prices.*2 then Some st
    else
      total ← total_value prices (st_weights st) (symbols cfg);
      weights' ← update_weights prices total (symbols cfg) (st_weights st);
      values' ← set_value i daily_return (st_values st);
      Some {| st_weights := weights'; st_values := values' |}
  else
    values' ← set_value i daily_return (st_values st);
    Some {| st_weights := st_weights st; st_values := values' |}.

Fixpoint run_loop (body : LoopState -> nat -> option LoopState)
    (rows : list nat) (st : LoopState) : option LoopState :=
  match rows with
  | [] => Some st
  | i :: rest => st' ← body st i; run_loop body rest st'
  end.

(** [run_backtest].  It reads [self.weights] and leaves the rewritten
    weights behind, so they are an argument and a result. *)
Definition run_backtest (cfg : Config) (data : gmap string (list PriceBar))
    (weights : gmap string Qc) : option (PortfolioFrame * gmap string Qc) :=
  frame ← calculate_portfolio_returns cfg data weights;
  let n := length (index frame) in
  let rebalance_dates := Calendar.resample_MS_index (index frame) in
  st ← run_loop (loop_body cfg data frame rebalance_dates) (seq 1 (n - 1))
        {| st_weights := weights; st_values := replicate n (initial_balance cfg) |};
  Some ({| returns := frame;
           Portfolio_Value := apply_trading_fees cfg (st_values st) |},
        st_weights st).

Definition calculate_mdd (portfolio_df : PortfolioFrame) : option Qc :=
  max_drawdown (Portfolio_Value portfolio_df).

(** [Portfolio_Value.iloc[-1]] raises on an empty table. *)
Definition calculate_total_return (cfg : Config) (portfolio_df : PortfolioFrame)
    : option Qc :=
  final ← list.last (Portfolio_Value portfolio_df);
  Some ((final / initial_balance cfg - 1) * qz 100).

(** The script body after [fetch_data] has stored [data]: [run_backtest],
    then the scalar metrics.  (The monthly table is a function of
    [Portfolio_Value] alone and is left out.) *)
Record Report := mkReport {
  report_frame : PortfolioFrame;
  report_mdd : option Qc;
  report_total_return : Qc
}.

Definition pipeline (cfg : Config) (data : gmap string (list PriceBar))
    (weights : gmap string Qc) : option (Report * gmap string Qc) :=
  '(portfolio_df, weights') ← run_backtest cfg data weights;
  total_return ← calculate_total_return cfg portfolio_df;
  Some ({| report_frame := portfolio_df;
           report_mdd := calculate_mdd portfolio_df;
           report_total_return := total_return |}, weights').

(** The script body, lines 162-166, on a backtester whose state is
    [(data, weights)]: it returns the report and the state it leaves. *)
Definition script (exchange : string -> option (list PriceBar)) (cfg : Config)
    (data : gmap string (list PriceBar)) (weights : gmap string Qc)
    : option (Report * (gmap string (list PriceBar) * gmap string Qc)) :=
  let data' := fetch_data exchange cfg data in
  '(report, weights') ← pipeline cfg data' weights;
  Some (report, (data', weights')).

End Rebalance.

(** * The signal engine, [src/strategy_backtest.py] *)

Module Strategy.

(** The fields of [PortfolioBacktester.__init__] the simulation reads. *)
Record Config := mkConfig {
  symbols : list string;
  short_window : nat;
  long_window : nat;
  initial_balance : Qc;
  trading_fee : Qc;
  start_date : option Z;
  end_date : option Z
}.

(** A row of an instrument's table once [apply_strategy] has added its
    three columns. *)
Record SignalRow := mkSignalRow {
  bar : PriceBar;
  SMA_short : Qc;
  SMA_long : Qc;
  Signal : Z
}.

#[global] Instance SignalRow_eq_dec : EqDecision SignalRow.
Proof. solve_decision. Defined.

(** An entry of [self.data]: the table as [fetch_data] stored it, or as
    [apply_strategy] rewrote it in place. *)
Inductive Frame :=
  | Fetched (rows : list PriceBar)
  | Prepared (rows : list SignalRow).

#[global] Instance Frame_eq_dec : EqDecision Frame.
Proof. solve_decision. Defined.

Definition bars_of (df : Frame) : list PriceBar :=
  match df with
  | Fetched rows => rows
  | Prepared rows => map bar rows
  end.

(** [df.index] *)
Definition frame_index (df : Frame) : list Z := map timestamp (bars_of df).

(** [fetch_data], lines 26-40.  A call that raises is reported and the loop
    goes on with the next symbol; a delivery, also an empty one, is cut to
    the date range when both dates are configured and replaces the entry of
    [self.data]. *)
Definition fetch_one (exchange : string -> option (list PriceBar)) (cfg : Config)
    (data : gmap string Frame) (symbol : string) : gmap string Frame :=
  match exchange symbol with
  | Some ohlcv =>
      let df :=
        match start_date cfg, end_date cfg with
        | Some s, Some e => date_filter s e ohlcv
        | _, _ => ohlcv
        end in
      <[symbol := Fetched df]> data
  | None => data
  end.

Definition fetch_data (exchange : string -> option (list PriceBar)) (cfg : Config)
    (data : gmap string Frame) : gmap string Frame :=
  fold_left (fetch_one exchange cfg) (symbols cfg) data.

(** [series.rolling(window=window).mean()]: NaN until [window] rows are
    available (and on every row for an empty window), then the mean of the
    last [window] values. *)
Definition rolling_mean (window : nat) (values : list Qc) : list (option Qc) :=
  map (fun i =>
         if bool_decide (window = 0 ∨ i + 1 < window)%nat then None
         else Some (py_sum (take window (drop (i + 1 - window) values))
                    / qz (Z.of_nat window)))
      (seq 0 (length values)).

(** Lines 48-49: the table with its two average columns. *)
Definition with_averages (cfg : Config) (rows : list PriceBar)
    : list (PriceBar * (option Qc * option Qc)) :=
  let closes := map close rows in
  zip rows (zip (rolling_mean (short_window cfg) closes)
                (rolling_mean (long_window cfg) closes)).

(** [df.dropna(inplace=True)]: a row stays when no cell of it is NaN. *)
Definition dropna (rows : list (PriceBar * (option Qc * option Qc)))
    : list (PriceBar * (Qc * Qc)) :=
  omap (fun r => s ← r.2.1; l ← r.2.2; Some (r.1, (s, l))) rows.

(** Lines 54-56, on one row: [0], overwritten by [1] where the short
    average is above the long one, then by [-1] where it is below. *)
Definition signal_of (sma_short sma_long : Qc) : Z :=
  let signal := 0%Z in
  let signal := if decide (sma_long < sma_short) then 1%Z else signal in
  let signal := if decide (sma_short < sma_long) then (-1)%Z else signal in
  signal.

(** The body of the loop of [apply_strategy] for one table. *)
Definition strategy_rows (cfg : Config) (rows : list PriceBar) : list SignalRow :=
  map (fun r => {| bar := r.1; SMA_short := r.2.1; SMA_long := r.2.2;
                   Signal := signal_of r.2.1 r.2.2 |})
      (dropna (with_averages cfg rows)).

Fixpoint apply_strategy_loop (cfg : Config) (syms : list string)
    (data : gmap string Frame) : option (gmap string Frame) :=
  match syms with
  | [] => Some data
  | symbol :: rest =>
      df ← data !! symbol;
      apply_strategy_loop cfg rest
        (<[symbol := Prepared (strategy_rows cfg (bars_of df))]> data)
  end.

(** [apply_strategy]: rewrites [self.data[symbol]] for every configured
    symbol, in order. *)
Definition apply_strategy (cfg : Config) (data : gmap string Frame)
    : option (gmap string Frame) :=
  apply_strategy_loop cfg (symbols cfg) data.

(** [df.loc[date, "Signal"]] and [df.loc[date, "close"]]; a table without
    the [Signal] column raises. *)
Definition loc_signal_close (date : Z) (df : Frame) : option (Z * Qc) :=
  match df with
  | Fetched _ => None
  | Prepared rows =>
      r ← List.find (fun r => bool_decide (timestamp (bar r) = date)) rows;
      Some (Signal r, close (bar r))
  end.

(** What the inner loop of [run_backtest] mutates: the local
    [portfolio_value], [self.positions] and the local [daily_value]. *)
Record Ledger := mkLedger {
  portfolio_value : Qc;
  positions : gmap string Qc;
  daily_value : Qc
}.

#[global] Instance Ledger_eq_dec : EqDecision Ledger.
Proof. solve_decision. Defined.

(** Lines 69-84, one instrument on one date. *)
Definition trade (cfg : Config) (data : gmap string Frame) (date : Z)
    (st : Ledger) (symbol : string) : option Ledger :=
  df ← data !! symbol;
  if bool_decide (date ∈ frame_index df) then
    '(signal, price) ← loc_signal_close date df;
    position ← positions st !! symbol;
    let n := qz (Z.of_nat (length (symbols cfg))) in
    let value := portfolio_value st in
    let st' :=
      if bool_decide (signal = 1%Z) && bool_decide (position = 0) then
        {| portfolio_value := value - (value / n) * trading_fee cfg;
           positions := <[symbol := (value / n) / price]> (positions st);
           daily_value := daily_value st |}
      else if bool_decide (signal = (-1)%Z) && bool_decide (0 < position) then
        {| portfolio_value :=
             value + position * price - (position * price) * trading_fee cfg;
           positions := <[symbol := 0]> (positions st);
           daily_value := daily_value st |}
      else st in
    position' ← positions st' !! symbol;
    Some {| portfolio_value := portfolio_value st';
            positions := positions st';
            daily_value := daily_value st' + position' * price |}
  else Some st.

Fixpoint trade_all (step : Ledger -> string -> option Ledger)
    (syms : list string) (st : Ledger) : option Ledger :=
  match syms with
  | [] => Some st
  | symbol :: rest => st' ← step st symbol; trade_all step rest st'
  end.

(** The outer loop of [run_backtest]: one history record per date. *)
Fixpoint run_days (cfg : Config) (data : gmap string Frame) (dates : list Z)
    (value : Qc) (pos : gmap string Qc)
    : option (list (Z * Qc) * gmap string Qc) :=
  match dates with
  | [] => Some ([], pos)
  | date :: rest =>
      st ← trade_all (trade cfg data date) (symbols cfg)
             {| portfolio_value := value; positions := pos; daily_value := 0 |};
      '(history, pos') ← run_days cfg data rest (portfolio_value st) (positions st);
      Some ((date, portfolio_value st + daily_value st) :: history, pos')
  end.

(** [run_backtest].  It reads and rewrites [self.positions], so the
    positions are an argument and a result; [portfolio_value] is a local
    that starts from [self.initial_balance] on every call. *)
Definition run_backtest (cfg : Config) (data : gmap string Frame)
    (pos : gmap string Qc) : option (list (Z * Qc) * gmap string Qc) :=
  first ← head (symbols cfg);
  df ← data !! first;
  run_days cfg data (frame_index df) (initial_balance cfg) pos.

(** [self.positions] as the constructor sets it. *)
Definition initial_positions (cfg : Config) : gmap string Qc :=
  list_to_map (map (fun symbol => (symbol, 0)) (symbols cfg)).

Definition calculate_mdd (portfolio_df : list (Z * Qc)) : option Qc :=
  max_drawdown portfolio_df.*2.

Definition calculate_total_return (cfg : Config) (portfolio_df : list (Z * Qc))
    : option Qc :=
  final ← list.last portfolio_df;
  Some ((final.2 / initial_balance cfg - 1) * qz 100).

(** What [calculate_cagr] returns: the string ["N/A"], or the percentage
    that [f"{cagr * 100:.2f}%"] prints. *)
Inductive Cagr :=
  | NotApplicable
  | Percent (x : Qc).

#[global] Instance Cagr_eq_dec : EqDecision Cagr.
Proof. solve_decision. Defined.

Section WithPower.

(** Python's [**] on floats. *)
Variable pow : Qc -> Qc -> Qc.

Definition calculate_cagr (cfg : Config) (portfolio_df : list (Z * Qc))
    : option Cagr :=
  end_row ← list.last portfolio_df;
  first_row ← head portfolio_df;
  let start_value := initial_balance cfg in
  let end_value := end_row.2 in
  let num_years := qz (Calendar.timedelta_days end_row.1 first_row.1) / qz 365 in
  if decide (num_years ≤ 0) then Some NotApplicable
  else
    let cagr := pow (end_value / start_value) (1 / num_years) - 1 in
    Some (Percent (cagr * qz 100)).

(** What the script prints.  (The monthly table is a function of the value
    series alone and is left out.) *)
Record Report := mkReport {
  report_values : list (Z * Qc);
  report_mdd : option Qc;
  report_cagr : Cagr;
  report_total_return : Qc
}.

(** Lines 187-192 on a backtester whose state is [(data, pos)]:
    [apply_strategy], [run_backtest], then the scalar metrics.  The result is
    the report and the state the object is left in: the tables as
    [apply_strategy] rewrote them and the positions as the ledger left
    them. *)
Definition pipeline (cfg : Config) (data : gmap string Frame)
    (pos : gmap string Qc)
    : option (Report * (gmap string Frame * gmap string Qc)) :=
  data' ← apply_strategy cfg data;
  '(portfolio_df, pos') ← run_backtest cfg data' pos;
  cagr ← calculate_cagr cfg portfolio_df;
  total_return ← calculate_total_return cfg portfolio_df;
  Some ({| report_values := portfolio_df;
           report_mdd := calculate_mdd portfolio_df;
           report_cagr := cagr;
           report_total_return := total_return |}, (data', pos')).

(** The script body, lines 185-192: [fetch_data] first, then the above. *)
Definition script (exchange : string -> option (list PriceBar)) (cfg : Config)
    (data : gmap string Frame) (pos : gmap string Qc)
    : option (Report * (gmap string Frame * gmap string Qc)) :=
  pipeline cfg (fetch_data exchange cfg data) pos.

End WithPower.

End Strategy.

(** * Vocabulary of the statements *)

(** The number of leading rows [apply_strategy] removes from a table of
    [n] rows: with windows of [short] and [long] rows, the first
    [max short long - 1] rows lack one of the averages (every row does when a
    window is empty). *)
Definition leading_rows (cfg : Strategy.Config) (n : nat) : nat :=
  if bool_decide (Strategy.short_window cfg = 0 ∨ Strategy.long_window cfg = 0)%nat
  then n
  else (Strategy.short_window cfg `max` Strategy.long_window cfg - 1)%nat.

(** A row whose [Signal] agrees with its two averages. *)
Definition signal_consistent (r : Strategy.SignalRow) : Prop :=
  (Strategy.Signal r = 1%Z ↔ Strategy.SMA_long r < Strategy.SMA_short r)
  ∧ (Strategy.Signal r = (-1)%Z ↔ Strategy.SMA_short r < Strategy.SMA_long r)
  ∧ (Strategy.Signal r = 0%Z ↔ Strategy.SMA_short r = Strategy.SMA_long r).

(** A table without the rows whose date is not in [dates]. *)
Definition restrict_frame (dates : list Z) (df : Strategy.Frame) : Strategy.Frame :=
  match df with
  | Strategy.Fetched rows =>
      Strategy.Fetched (filter (λ b, timestamp b ∈ dates) rows)
  | Strategy.Prepared rows =>
      Strategy.Prepared (filter (λ r, timestamp (Strategy.bar r) ∈ dates) rows)
  end.

(** An entry of [self.data] that [apply_strategy] has prepared, with the
    unique row labels of a price series. *)
Definition prepared (data : gmap string Strategy.Frame) (symbol : string) : Prop :=
  ∃ rows, data !! symbol = Some (Strategy.Prepared rows)
          ∧ NoDup (map (λ r, timestamp (Strategy.bar r)) rows).

(** The state in which no subscript of the loop of the signal engine fails:
    every configured instrument is prepared and has a position entry. *)
Definition ready (cfg : Strategy.Config) (data : gmap string Strategy.Frame)
    (pos : gmap string Qc) : Prop :=
  Forall (λ s, prepared data s ∧ is_Some (pos !! s)) (Strategy.symbols cfg).

(** Whether row [i] of the daily calendar is a rebalance date at which every
    tracked instrument has a price, so that lines 95-97 rewrite the weights. *)
Definition executes_rebalance (cfg : Rebalance.Config)
    (data : gmap string (list PriceBar)) (i : nat) : bool :=
  let index := Calendar.date_range (Rebalance.start_date cfg) (Rebalance.end_date cfg) in
  match index !! i with
  | Some date =>
      bool_decide (date ∈ Calendar.resample_MS_index index)
      && match Rebalance.current_prices cfg data index date with
         | Some prices => negb (existsb isnan prices.*2)
         | None => false
         end
  | None => false
  end.

(** No row after the first rewrites the weights. *)
Definition rebalance_free (cfg : Rebalance.Config)
    (data : gmap string (list PriceBar)) : Prop :=
  let index := Calendar.date_range (Rebalance.start_date cfg) (Rebalance.end_date cfg) in
  Forall (λ i, executes_rebalance cfg data i = false) (seq 1 (length index - 1)).

(** The mean of the [window] values of [values] that end at row [t]. *)
Definition trailing_mean (window : nat) (values : list Qc) (t : nat) : Qc :=
  py_sum (take window (drop (t + 1 - window) values)) / qz (Z.of_nat window).

(** How often [symbol] is listed in [syms]: the loop of [apply_strategy]
    passes over the table of a symbol once for every listing. *)
Definition occurrences (symbol : string) (syms : list string) : nat :=
  length (filter (λ s, s = symbol) syms).

(** An entry of [self.data] after [n] passes of the loop body of
    [apply_strategy]. *)
Definition after_passes (cfg : Strategy.Config) (n : nat) (df : Strategy.Frame)
    : Strategy.Frame :=
  Nat.iter n (λ df, Strategy.Prepared (Strategy.strategy_rows cfg (Strategy.bars_of df))) df.

(** Every position is closed. *)
Definition flat (pos : gmap string Qc) : Prop := map_Forall (λ _ q, q = 0) pos.

(** * Sample inputs

    Concrete configurations and price series on which the statements below
    are evaluated. *)

Definition mdd_sample_values : list Qc := [qz 100; qz 120; qz 90].

Definition mdd_sample_frame : Rebalance.PortfolioFrame :=
  {| Rebalance.returns :=
       {| Rebalance.index := [0; 1; 2]%Z;
          Rebalance.return_columns := [];
          Rebalance.Portfolio_Return := [0; 0; 0] |};
     Rebalance.Portfolio_Value := mdd_sample_values |}.

Definition mdd_sample_history : list (Z * Qc) :=
  [(0%Z, qz 100); (1%Z, qz 120); (2%Z, qz 90)].

Definition day (d : Z) : Z := (d * Calendar.day_ms)%Z.

(** A bar at midnight of day [d] whose prices all equal [c]. *)
Definition flat_bar (d : Z) (c : Z) : PriceBar :=
  {| timestamp := day d; open := qz c; high := qz c; low := qz c;
     close := qz c; volume := qz 1 |}.

Definition half_half : gmap string Qc := {[ "A" := qf 1 2; "B" := qf 1 2 ]}.

(** 2022-01-30 .. 2022-02-02 (days 19022 .. 19025).  Instrument A trades on
    every day; instrument B is listed on 2022-02-02 only, so on the rebalance
    date 2022-02-01 its price cannot be forward-filled. *)
Definition late_listing_cfg : Rebalance.Config :=
  {| Rebalance.symbols := ["A"; "B"];
     Rebalance.initial_balance := qz 10000;
     Rebalance.start_date := day 19022;
     Rebalance.end_date := day 19025;
     Rebalance.trading_fee := qf 1 1000;
     Rebalance.slippage := qf 1 2000 |}.

Definition late_listing_data : gmap string (list PriceBar) :=
  {[ "A" := [flat_bar 19022 100; flat_bar 19023 110; flat_bar 19024 110;
             flat_bar 19025 110];
     "B" := [flat_bar 19025 50] ]}.

Definition late_listing_frame : Rebalance.ReturnsFrame :=
  {| Rebalance.index := [day 19022; day 19023; day 19024; day 19025];
     Rebalance.return_columns :=
       [("A", [0; qf 1 10; 0; 0]); ("B", [0; 0; 0; 0])];
     Rebalance.Portfolio_Return := [0; qf 1 20; 0; 0] |}.

Definition late_listing_state : Rebalance.LoopState :=
  {| Rebalance.st_weights := half_half;
     Rebalance.st_values := [qz 10000; qz 10500; qz 10000; qz 10000] |}.

(** 2022-01-31 .. 2022-02-01.  A doubles from 100 to 200 while B stays at
    50; 2022-02-01 is a rebalance date and both prices are known. *)
Definition doubling_cfg : Rebalance.Config :=
  {| Rebalance.symbols := ["A"; "B"];
     Rebalance.initial_balance := qz 10000;
     Rebalance.start_date := day 19023;
     Rebalance.end_date := day 19024;
     Rebalance.trading_fee := qf 1 1000;
     Rebalance.slippage := qf 1 2000 |}.

Definition doubling_data : gmap string (list PriceBar) :=
  {[ "A" := [flat_bar 19023 100; flat_bar 19024 200];
     "B" := [flat_bar 19023 50; flat_bar 19024 50] ]}.

Definition doubling_frame : Rebalance.ReturnsFrame :=
  {| Rebalance.index := [day 19023; day 19024];
     Rebalance.return_columns := [("A", [0; 1]); ("B", [0; 0])];
     Rebalance.Portfolio_Return := [0; qf 1 2] |}.

Definition doubling_state : Rebalance.LoopState :=
  {| Rebalance.st_weights := half_half;
     Rebalance.st_values := [qz 10000; qz 10000] |}.

(** The late-listing data when the retrieval of B failed altogether. *)
Definition failed_fetch_data : gmap string (list PriceBar) :=
  {[ "A" := [flat_bar 19022 100; flat_bar 19023 110; flat_bar 19024 110;
             flat_bar 19025 110] ]}.

(** An instrument whose close goes 50, 100, 150, 100 on four consecutive
    days, with windows of one and two rows: the short average is the close,
    the long one the mean of the last two closes, so the prepared table has
    the signals 1, 1, -1 on the last three days. *)
Definition crossover_cfg : Strategy.Config :=
  {| Strategy.symbols := ["A"];
     Strategy.short_window := 1;
     Strategy.long_window := 2;
     Strategy.initial_balance := qz 10000;
     Strategy.trading_fee := qf 1 1000;
     Strategy.start_date := None;
     Strategy.end_date := None |}.

Definition crossover_data : gmap string Strategy.Frame :=
  {[ "A" := Strategy.Fetched [flat_bar 19000 50; flat_bar 19001 100;
                              flat_bar 19002 150; flat_bar 19003 100] ]}.

(** The one-instrument universe of the ledger example, with fee [fee]. *)
Definition ledger_cfg (fee : Qc) : Strategy.Config :=
  {| Strategy.symbols := ["A"];
     Strategy.short_window := 50;
     Strategy.long_window := 200;
     Strategy.initial_balance := qz 10000;
     Strategy.trading_fee := fee;
     Strategy.start_date := None;
     Strategy.end_date := None |}.

(** A prepared row at time [t] with close [c] and signal [signal]. *)
Definition signal_row (t : Z) (c : Qc) (signal : Z) : Strategy.SignalRow :=
  {| Strategy.bar := {| timestamp := t; open := c; high := c; low := c;
                        close := c; volume := qz 1 |};
     Strategy.SMA_short := c + qz signal;
     Strategy.SMA_long := c;
     Strategy.Signal := signal |}.

(** Two prepared instruments.  A has rows on days 19001 and 19003; B has
    rows on days 19001, 19002 and 19003, and its Sell signal falls on day
    19002, a date that A does not have. *)
Definition two_cfg : Strategy.Config :=
  {| Strategy.symbols := ["A"; "B"];
     Strategy.short_window := 50;
     Strategy.long_window := 200;
     Strategy.initial_balance := qz 10000;
     Strategy.trading_fee := qf 1 1000;
     Strategy.start_date := None;
     Strategy.end_date := None |}.

Definition two_A : Strategy.Frame :=
  Strategy.Prepared [signal_row (day 19001) (qz 100) 1;
                     signal_row (day 19003) (qz 120) (-1)].

Definition two_B : Strategy.Frame :=
  Strategy.Prepared [signal_row (day 19001) (qz 10) 1;
                     signal_row (day 19002) (qz 5) (-1);
                     signal_row (day 19003) (qz 20) 0].

Definition two_data : gmap string Strategy.Frame :=
  {[ "A" := two_A; "B" := two_B ]}.

(** A value series of two records twelve hours apart (an intraday
    timeframe), and one of two records a year apart. *)
Definition half_day_series : list (Z * Qc) :=
  [(day 19000, qz 10000); ((day 19000 + 43200000)%Z, qz 12000)].

Definition one_year_series : list (Z * Qc) :=
  [(day 19000, qz 10000); (day 19365, qz 20000)].

(** An instrument whose close goes 50, 100, 150: with the windows of
    [crossover_cfg] it is bought on the second day and still held at the
    end. *)
Definition rising_data : gmap string Strategy.Frame :=
  {[ "A" := Strategy.Fetched [flat_bar 19000 50; flat_bar 19001 100;
                              flat_bar 19002 150] ]}.

(** A stand-in for the power function where a run needs one. *)
Definition sample_pow (x y : Qc) : Qc := x.

(** An exchange client that delivers the tables of [data] and raises for
    every other symbol. *)
Definition delivering (data : gmap string (list PriceBar))
    : string → option (list PriceBar) :=
  λ symbol, data !! symbol.

Definition delivering_frames (data : gmap string Strategy.Frame)
    : string → option (list PriceBar) :=
  λ symbol, Strategy.bars_of <$> data !! symbol.

(** * Verification *)

(** ** Arithmetic on canonical rationals

    An equation or an order between [Qc] expressions is moved to [Q], where
    [ring], [field] and [lra] apply. *)

Ltac qc_unfold :=
  unfold qz, qf, Qc_of_Z, Qcdiv, Qcminus, Qcinv, Qcopp, Qcmult, Qcplus, Q2Qc,
    Qcle, Qclt in *;
  cbn [this] in *; rewrite ?Qred_correct in *; unfold inject_Z in *.

Ltac qc_eq := apply Qc_is_canon; qc_unfold.

(** Closed decidable goals are settled by evaluation. *)
Ltac by_computation :=
  match goal with
  | |- ?P => apply (bool_decide_eq_true_1 P); vm_compute; reflexivity
  end.

Lemma Qc_min_le_l x y : Qc_min x y ≤ x.
Proof.
  unfold Qc_min. destruct (decide (y < x)) as [H|H].
  - by apply Qclt_le_weak.
  - apply Qcle_refl.
Qed.

Lemma fold_min_le xs : ∀ x, fold_left Qc_min xs x ≤ x.
Proof.
  induction xs as [|y xs IH]; intros x; cbn.
  - apply Qcle_refl.
  - eapply Qcle_trans; [apply IH | apply Qc_min_le_l].
Qed.

Lemma fold_min_zero xs : Forall (λ d, d = 0) xs → fold_left Qc_min xs 0 = 0.
Proof.
  induction 1 as [|d xs -> _ IH]; cbn; [done|].
  unfold Qc_min at 2. by destruct (decide (0 < 0)).
Qed.

Lemma self_drawdown v : (v - v) / v = 0.
Proof. qc_eq. ring. Qed.

Lemma cummax_from_sorted peak values :
  Sorted Qcle (peak :: values) → cummax_from peak values = values.
Proof.
  revert peak. induction values as [|v rest IH]; intros peak Hs; cbn; [done|].
  apply Sorted_inv in Hs as [Hs Hhd]. apply HdRel_inv in Hhd.
  assert (Qc_max peak v = v) as ->.
  { unfold Qc_max. destruct (decide (peak < v)); [done|].
    apply Qcle_antisym; [done | by apply Qcnot_lt_le]. }
  by rewrite IH.
Qed.

Lemma drawdown_sorted_zero values :
  Forall (λ d, d = 0) (zip_with (λ v p, (v - p) / p) values values).
Proof.
  induction values as [|v rest IH]; cbn; constructor; [apply self_drawdown | done].
Qed.

Lemma max_drawdown_spec values :
  values ≠ [] →
  ∃ m, max_drawdown values = Some m ∧ m ≤ 0 ∧ (Sorted Qcle values → m = 0).
Proof.
  destruct values as [|v rest]; [done|]. intros _.
  unfold max_drawdown. cbn. rewrite self_drawdown.
  eexists; split; [reflexivity|]. split.
  - pose proof (fold_min_le (zip_with (λ v p, (v - p) / p) rest (cummax_from v rest)) 0) as H.
    revert H. generalize (fold_left Qc_min (zip_with (λ v p, (v - p) / p) rest (cummax_from v rest)) 0).
    intros m Hm. qc_unfold. lra.
  - intros Hs. rewrite cummax_from_sorted by done.
    rewrite fold_min_zero by apply drawdown_sorted_zero. qc_eq. ring.
Qed.

(** ** Maximum drawdown (both engines) *)

(** C8.  For a non-empty value series with positive values, [calculate_mdd]
    of either engine returns a number that is at most 0, and exactly 0 when
    the series never decreases. *)
Theorem calculate_mdd_nonpositive
    (frame : Rebalance.PortfolioFrame) (history : list (Z * Qc)) (values : list Qc) :
  Rebalance.Portfolio_Value frame = values →
  history.*2 = values →
  values ≠ [] →
  Forall (λ v, 0 < v) values →
  ∃ m, Rebalance.calculate_mdd frame = Some m
     ∧ Strategy.calculate_mdd history = Some m
     ∧ m ≤ 0
     ∧ (Sorted Qcle values → m = 0).
Proof.
  intros Hframe Hhist Hne _.
  destruct (max_drawdown_spec values Hne) as (m & Hm & Hle & Hzero).
  exists m. unfold Rebalance.calculate_mdd, Strategy.calculate_mdd.
  rewrite Hframe, Hhist. done.
Qed.

Lemma calculate_mdd_nonpositive_witness :
  ∃ m, Rebalance.calculate_mdd mdd_sample_frame = Some m
     ∧ Strategy.calculate_mdd mdd_sample_history = Some m
     ∧ m ≤ 0
     ∧ (Sorted Qcle mdd_sample_values → m = 0).
Proof.
  apply (calculate_mdd_nonpositive mdd_sample_frame mdd_sample_history
           mdd_sample_values).
  - reflexivity.
  - reflexivity.
  - discriminate.
  - repeat constructor.
Defined.

(** The drawdown of the sample series: 120 falls to 90, that is -25 %. *)
Example mdd_sample_value : max_drawdown mdd_sample_values = Some (qz (-25)).
Proof. by_computation. Qed.

(** ** The rebalancing loop *)

Section RebalanceLoop.

Import Rebalance.

Variables (cfg : Config) (data : gmap string (list PriceBar)).
Variables (frame : ReturnsFrame) (rebalance_dates : list Z).

Lemma loop_body_skip st i date daily_return prices :
  index frame !! i = Some date →
  Portfolio_Return frame !! i = Some daily_return →
  date ∈ rebalance_dates →
  current_prices cfg data (index frame) date = Some prices →
  None ∈ prices.*2 →
  loop_body cfg data frame rebalance_dates st i = Some st.
Proof.
  intros Hdate Hret Hin Hprices Hnan. unfold loop_body.
  rewrite Hdate, Hret. cbn. rewrite bool_decide_eq_true_2 by done.
  rewrite Hprices. cbn.
  assert (existsb isnan prices.*2 = true) as ->; [|done].
  apply existsb_exists. exists None. split; [|done].
  by apply list_elem_of_In.
Qed.

Lemma current_prices_keys date prices :
  current_prices cfg data (index frame) date = Some prices →
  prices.*1 = symbols cfg.
Proof.
  unfold current_prices. intros H. apply mapM_Some in H.
  induction H as [|s e syms ps Hse _ IH]; cbn; [done|].
  destruct (current_price data (index frame) date s); cbn in Hse; [|done].
  injection Hse as <-. cbn. by rewrite IH.
Qed.

Lemma price_of_available prices symbol :
  existsb isnan prices.*2 = false →
  symbol ∈ prices.*1 →
  is_Some (price_of prices symbol).
Proof.
  unfold price_of. induction prices as [|[s p] prices IH]; cbn; intros Hnan Hin.
  - by apply elem_of_nil in Hin.
  - apply orb_false_iff in Hnan as [Hp Hnan].
    case_bool_decide as Hs; cbn.
    + destruct p; [by eexists | done].
    + apply IH; [done|]. apply elem_of_cons in Hin as [->|Hin]; done.
Qed.

Lemma total_value_defined prices weights syms :
  Forall (λ s, is_Some (price_of prices s) ∧ is_Some (weights !! s)) syms →
  is_Some (total_value prices weights syms).
Proof.
  intros H. unfold total_value.
  assert (is_Some (mapM (λ symbol, p ← price_of prices symbol;
                                   w ← weights !! symbol; Some (p * w)) syms))
    as [terms ->]; [|by eexists].
  induction H as [|s syms [[p Hp] [w Hw]] _ [terms IH]]; cbn; [by eexists|].
  rewrite Hp, Hw. cbn. change (mapM ?f syms) with (mapM f syms) in IH.
  rewrite IH. by eexists.
Qed.

Lemma update_weights_spec prices total syms : ∀ weights,
  NoDup syms →
  Forall (λ s, is_Some (price_of prices s) ∧ is_Some (weights !! s)) syms →
  ∃ weights', update_weights prices total syms weights = Some weights'
    ∧ (∀ s p w, s ∈ syms → price_of prices s = Some p → weights !! s = Some w →
                weights' !! s = Some (p * w / total))
    ∧ (∀ s, s ∉ syms → weights' !! s = weights !! s).
Proof.
  induction syms as [|s syms IH]; intros weights Hnd Hall; cbn.
  - exists weights. split; [done|]. split; [|done].
    intros s p w Hs. by apply elem_of_nil in Hs.
  - apply NoDup_cons in Hnd as [Hs Hnd].
    apply Forall_cons in Hall as [[[p Hp] [w Hw]] Hall].
    rewrite Hp, Hw. cbn.
    destruct (IH (<[s := p * w / total]> weights) Hnd) as (weights' & Hrun & Hin & Hout).
    { eapply Forall_impl; [exact Hall|]. intros s' [Hp' Hw']. split; [done|].
      rewrite lookup_insert. case_decide; [by eexists | done]. }
    exists weights'. split; [done|]. split.
    + intros s' p' w' Hs' Hp' Hw'. apply elem_of_cons in Hs' as [->|Hs'].
      * rewrite Hout by done. rewrite lookup_insert_eq. congruence.
      * apply Hin; [done..|]. rewrite lookup_insert_ne; [done|].
        intros ->. done.
    + intros s' Hs'. apply not_elem_of_cons in Hs' as [Hne Hs'].
      rewrite Hout by done. by rewrite lookup_insert_ne.
Qed.

End RebalanceLoop.


(** The sample tables are the ones the engine computes. *)
Example late_listing_frame_computed :
  Rebalance.calculate_portfolio_returns late_listing_cfg late_listing_data half_half
  = Some late_listing_frame.
Proof. by_computation. Qed.

Example doubling_frame_computed :
  Rebalance.calculate_portfolio_returns doubling_cfg doubling_data half_half
  = Some doubling_frame.
Proof. by_computation. Qed.

Section RebalanceEvent.

Import Rebalance.

Variables (cfg : Config) (data : gmap string (list PriceBar)).
Variables (frame : ReturnsFrame) (rebalance_dates : list Z).

Lemma total_value_sum prices weights syms total :
  total_value prices weights syms = Some total →
  total = py_sum (map (λ s, default 0 (price_of prices s)
                            * default 0 (weights !! s)) syms).
Proof.
  unfold total_value. intros H.
  destruct (mapM _ syms) as [terms|] eqn:Hterms; [|done].
  cbn in H. injection H as <-. f_equal.
  apply mapM_Some in Hterms.
  induction Hterms as [|s t syms terms Hst _ IH]; cbn; [done|].
  destruct (price_of prices s) as [p|]; [|done].
  destruct (weights !! s) as [w|]; [|done].
  cbn in *. injection Hst as <-. by rewrite IH.
Qed.

Lemma loop_body_rebalance st i date daily_return prices :
  NoDup (symbols cfg) →
  index frame !! i = Some date →
  Portfolio_Return frame !! i = Some daily_return →
  is_Some (st_values st !! (i - 1)%nat) →
  date ∈ rebalance_dates →
  current_prices cfg data (index frame) date = Some prices →
  None ∉ prices.*2 →
  Forall (λ s, is_Some (st_weights st !! s)) (symbols cfg) →
  ∃ st' total,
    loop_body cfg data frame rebalance_dates st i = Some st'
    ∧ total_value prices (st_weights st) (symbols cfg) = Some total
    ∧ ∀ s p w, s ∈ symbols cfg → price_of prices s = Some p →
               st_weights st !! s = Some w →
               st_weights st' !! s = Some (p * w / total).
Proof.
  intros Hnd Hdate Hret [prev Hprev] Hin Hprices Hnan Hw.
  assert (existsb isnan prices.*2 = false) as Hnan'.
  { apply not_true_is_false. intros H. apply existsb_exists in H as (x & Hx & Hx').
    destruct x; [done|]. by apply list_elem_of_In in Hx. }
  assert (Forall (λ s, is_Some (price_of prices s) ∧ is_Some (st_weights st !! s))
            (symbols cfg)) as Hall.
  { apply Forall_forall. intros s Hs. split.
    - apply price_of_available; [done|].
      by rewrite (current_prices_keys cfg data frame date prices).
    - by eapply Forall_forall in Hw. }
  destruct (total_value_defined prices (st_weights st) (symbols cfg) Hall)
    as [total Htotal].
  destruct (update_weights_spec prices total (symbols cfg) (st_weights st) Hnd Hall)
    as (weights' & Hupd & Hformula & _).
  eexists _, total. split; [|split; [done|]].
  - unfold loop_body. rewrite Hdate, Hret. cbn.
    rewrite bool_decide_eq_true_2 by done.
    rewrite Hprices. cbn. rewrite Hnan', Htotal. cbn. rewrite Hupd. cbn.
    unfold set_value. rewrite Hprev. cbn. reflexivity.
  - cbn. exact Hformula.
Qed.

(** Line 99 runs on every date that is not a skipped event: a date that is
    not a rebalance date, or a rebalance date with every price available. *)
Lemma loop_body_sets_value st st' i date daily_return prev :
  loop_body cfg data frame rebalance_dates st i = Some st' →
  index frame !! i = Some date →
  Portfolio_Return frame !! i = Some daily_return →
  st_values st !! (i - 1)%nat = Some prev →
  (date ∉ rebalance_dates
   ∨ ∃ prices, current_prices cfg data (index frame) date = Some prices
               ∧ None ∉ prices.*2) →
  st_values st' = <[i := prev * (1 + daily_return)]> (st_values st).
Proof.
  intros Hbody Hdate Hret Hprev Hcase. unfold loop_body in Hbody.
  rewrite Hdate, Hret in Hbody. cbn in Hbody. unfold set_value in Hbody.
  rewrite Hprev in Hbody. cbn in Hbody.
  case_bool_decide as Hin.
  - destruct Hcase as [Hnot | (prices & Hprices & Hnan)]; [done|].
    rewrite Hprices in Hbody. cbn in Hbody.
    destruct (existsb isnan prices.*2) eqn:Hex.
    + apply existsb_exists in Hex as (x & Hx & Hx').
      destruct x; [done|]. by apply list_elem_of_In in Hx.
    + destruct (total_value _ _ _); [|done]. cbn in Hbody.
      destruct (update_weights _ _ _ _); [|done]. cbn in Hbody.
      by injection Hbody as <-.
  - by injection Hbody as <-.
Qed.

End RebalanceEvent.

(** C5.  At a rebalance date at which the forward-filled price of some
    tracked instrument is NaN, the iteration of the loop of [run_backtest]
    ends with [self.weights] as it found it. *)
Theorem skipped_rebalance_keeps_weights
    (cfg : Rebalance.Config) (data : gmap string (list PriceBar))
    (frame : Rebalance.ReturnsFrame) (rebalance_dates : list Z)
    (st : Rebalance.LoopState) (i : nat) (date : Z) (daily_return : Qc)
    (prices : list (string * option Qc)) :
  Rebalance.index frame !! i = Some date →
  Rebalance.Portfolio_Return frame !! i = Some daily_return →
  date ∈ rebalance_dates →
  Rebalance.current_prices cfg data (Rebalance.index frame) date = Some prices →
  None ∈ prices.*2 →
  ∃ st', Rebalance.loop_body cfg data frame rebalance_dates st i = Some st'
       ∧ Rebalance.st_weights st' = Rebalance.st_weights st.
Proof.
  intros Hdate Hret Hin Hprices Hnan. exists st. split; [|done].
  by eapply loop_body_skip.
Qed.

Lemma skipped_rebalance_keeps_weights_witness :
  ∃ st', Rebalance.loop_body late_listing_cfg late_listing_data late_listing_frame
           (Calendar.resample_MS_index (Rebalance.index late_listing_frame))
           late_listing_state 2 = Some st'
       ∧ Rebalance.st_weights st' = Rebalance.st_weights late_listing_state.
Proof.
  apply (skipped_rebalance_keeps_weights late_listing_cfg late_listing_data
           late_listing_frame
           (Calendar.resample_MS_index (Rebalance.index late_listing_frame))
           late_listing_state 2 (day 19024) 0
           [("A", Some (qz 110)); ("B", None)]).
  - reflexivity.
  - reflexivity.
  - by_computation.
  - by_computation.
  - by_computation.
Defined.

Lemma two_thirds_one_third (pb : Qc) :
  pb ≠ 0 →
  (2 * pb) * qf 1 2 / py_sum [(2 * pb) * qf 1 2; pb * qf 1 2] = qf 2 3
  ∧ pb * qf 1 2 / py_sum [(2 * pb) * qf 1 2; pb * qf 1 2] = qf 1 3.
Proof.
  intros Hpb.
  assert (¬ (this pb == 0)%Q) as Hpb'.
  { intros H. apply Hpb. by apply Qc_is_canon. }
  unfold py_sum. cbn [fold_left].
  split; qc_eq; field; intros H; apply Hpb'; lra.
Qed.

(** C3 (amended).  At a rebalance date at which every tracked instrument has
    a price, the iteration replaces each weight by
    [price * old_weight / total], where [total] is the sum of
    [price * old_weight] over the configured symbols.  It is the prices at the
    event that enter, not their change since the weights were set: from
    weights one half each, the result is 2/3 and 1/3 exactly when the first
    price is twice the second at the event. *)
Theorem rebalance_weight_formula
    (cfg : Rebalance.Config) (data : gmap string (list PriceBar))
    (frame : Rebalance.ReturnsFrame) (rebalance_dates : list Z)
    (st : Rebalance.LoopState) (i : nat) (date : Z) (daily_return : Qc)
    (prices : list (string * option Qc)) :
  NoDup (Rebalance.symbols cfg) →
  Rebalance.index frame !! i = Some date →
  Rebalance.Portfolio_Return frame !! i = Some daily_return →
  is_Some (Rebalance.st_values st !! (i - 1)%nat) →
  date ∈ rebalance_dates →
  Rebalance.current_prices cfg data (Rebalance.index frame) date = Some prices →
  None ∉ prices.*2 →
  Forall (λ s, is_Some (Rebalance.st_weights st !! s)) (Rebalance.symbols cfg) →
  ∃ st',
    Rebalance.loop_body cfg data frame rebalance_dates st i = Some st'
    ∧ (let total :=
         py_sum (map (λ s, default 0 (Rebalance.price_of prices s)
                           * default 0 (Rebalance.st_weights st !! s))
                     (Rebalance.symbols cfg)) in
       ∀ s p w, s ∈ Rebalance.symbols cfg →
                Rebalance.price_of prices s = Some p →
                Rebalance.st_weights st !! s = Some w →
                Rebalance.st_weights st' !! s = Some (p * w / total))
    ∧ (∀ a b pb, Rebalance.symbols cfg = [a; b] →
                 Rebalance.st_weights st !! a = Some (qf 1 2) →
                 Rebalance.st_weights st !! b = Some (qf 1 2) →
                 Rebalance.price_of prices a = Some (2 * pb) →
                 Rebalance.price_of prices b = Some pb →
                 pb ≠ 0 →
                 Rebalance.st_weights st' !! a = Some (qf 2 3)
                 ∧ Rebalance.st_weights st' !! b = Some (qf 1 3)).
Proof.
  intros Hnd Hdate Hret Hprev Hin Hprices Hnan Hw.
  destruct (loop_body_rebalance cfg data frame rebalance_dates st i date
              daily_return prices Hnd Hdate Hret Hprev Hin Hprices Hnan Hw)
    as (st' & total & Hbody & Htotal & Hformula).
  apply total_value_sum in Htotal.
  exists st'. split; [done|]. split.
  - cbn zeta. by rewrite <- Htotal.
  - intros a b pb Hsyms Hwa Hwb Hpa Hpb Hne.
    rewrite Hsyms in Htotal, Hformula. cbn in Htotal.
    rewrite Hpa, Hpb, Hwa, Hwb in Htotal. cbn in Htotal.
    destruct (two_thirds_one_third pb Hne) as [Ha Hb].
    unfold py_sum in Ha, Hb. cbn in Ha, Hb.
    rewrite (Hformula a _ _ ltac:(set_solver) Hpa Hwa).
    rewrite (Hformula b _ _ ltac:(set_solver) Hpb Hwb).
    rewrite Htotal. unfold py_sum. cbn. by rewrite Ha, Hb.
Qed.

Lemma rebalance_weight_formula_witness :
  ∃ st',
    Rebalance.loop_body doubling_cfg doubling_data doubling_frame
      (Calendar.resample_MS_index (Rebalance.index doubling_frame))
      doubling_state 1 = Some st'
    ∧ Rebalance.st_weights st' !! "A" = Some (qf 4 5)
    ∧ Rebalance.st_weights st' !! "B" = Some (qf 1 5).
Proof.
  destruct (rebalance_weight_formula doubling_cfg doubling_data doubling_frame
              (Calendar.resample_MS_index (Rebalance.index doubling_frame))
              doubling_state 1 (day 19024) (qf 1 2)
              [("A", Some (qz 200)); ("B", Some (qz 50))])
    as (st' & Hbody & Hformula & _).
  - by_computation.
  - reflexivity.
  - reflexivity.
  - by eexists.
  - by_computation.
  - by_computation.
  - by_computation.
  - by_computation.
  - exists st'. split; [exact Hbody|]. split.
    + rewrite (Hformula "A" (qz 200) (qf 1 2)); [| by_computation ..].
      f_equal. by_computation.
    + rewrite (Hformula "B" (qz 50) (qf 1 2)); [| by_computation ..].
      f_equal. by_computation.
Defined.

(** C3, as stated, fails: A doubles from 100 to 200 while B stays at 50, and
    the rebalance of 2022-02-01 turns the weights one half each into 4/5 and
    1/5, not 2/3 and 1/3. *)
Lemma doubled_price_gives_four_fifths :
  ∃ frame weights',
    Rebalance.run_backtest doubling_cfg doubling_data half_half
    = Some (frame, weights')
    ∧ weights' !! "A" = Some (qf 4 5)
    ∧ weights' !! "B" = Some (qf 1 5)
    ∧ weights' !! "A" ≠ Some (qf 2 3)
    ∧ weights' !! "B" ≠ Some (qf 1 3).
Proof.
  eexists _, _. split; [vm_compute; reflexivity|].
  split_and!; by_computation.
Qed.

(** C1 fails on the code.  With instrument B listed on 2022-02-02 only, the
    rebalance date 2022-02-01 is left by [continue] before line 99 runs: the
    value of that date stays at the initial balance the column was filled
    with, although the value of the day before was 10500 and the blended
    return of the date is 0; the next date then compounds from 10000. *)
Theorem skipped_rebalance_resets_value :
  ∃ st frame weights',
    Rebalance.run_loop
      (Rebalance.loop_body late_listing_cfg late_listing_data late_listing_frame
         (Calendar.resample_MS_index (Rebalance.index late_listing_frame)))
      [1; 2; 3]%nat
      {| Rebalance.st_weights := half_half;
         Rebalance.st_values := replicate 4 (qz 10000) |} = Some st
    ∧ Rebalance.st_values st = [qz 10000; qz 10500; qz 10000; qz 10000]
    ∧ Rebalance.run_backtest late_listing_cfg late_listing_data half_half
      = Some (frame, weights')
    ∧ Rebalance.Portfolio_Return (Rebalance.returns frame) = [0; qf 1 20; 0; 0]
    ∧ Rebalance.Portfolio_Value frame = [qz 9985; qf 41937 4; qz 9985; qz 9985]
    ∧ qz 10000 ≠ qz 10500 * (1 + 0)
    ∧ qz 9985 ≠ qf 41937 4 * (1 + 0).
Proof.
  eexists _, _, _. split; [vm_compute; reflexivity|].
  split; [by_computation|].
  split; [vm_compute; reflexivity|].
  split_and!; by_computation.
Qed.

(** ** The blended return needs every configured instrument *)

Section BlendedReturn.

Import Rebalance.

Variables (data : gmap string (list PriceBar)) (index : list Z).

Lemma join_returns_absent syms : ∀ cols symbol,
  symbol ∈ syms → data !! symbol = None →
  join_returns data index syms cols = None.
Proof.
  induction syms as [|s syms IH]; intros cols symbol Hin Habs; cbn.
  - by apply elem_of_nil in Hin.
  - apply elem_of_cons in Hin as [<-|Hin].
    + by rewrite Habs.
    + destruct (data !! s); [|done]. cbn. case_bool_decide; [done|].
      by eapply IH.
Qed.

Lemma join_returns_Some syms : ∀ cols cols',
  join_returns data index syms cols = Some cols' →
  cols'.*1 = cols.*1 ++ syms
  ∧ NoDup syms
  ∧ Forall (λ s, is_Some (data !! s) ∧ s ∉ cols.*1) syms.
Proof.
  induction syms as [|s syms IH]; intros cols cols' H; cbn in H.
  - injection H as <-. rewrite app_nil_r. split; [done|]. split; constructor.
  - destruct (data !! s) as [df|] eqn:Hdf; [|done]. cbn in H.
    case_bool_decide as Hs; [done|].
    apply IH in H as (Hkeys & Hnd & Hall).
    rewrite fmap_app in Hkeys, Hall. cbn in Hkeys, Hall.
    split; [by rewrite Hkeys, <- app_assoc|]. split.
    + apply NoDup_cons. split; [|done]. intros Hin.
      eapply Forall_forall in Hall as [_ Hall]; [|exact Hin].
      apply Hall. set_solver.
    + constructor; [by split; [eexists|]|].
      eapply Forall_impl; [exact Hall|]. intros s' [? Hnot]. split; [done|].
      set_solver.
Qed.

Lemma join_returns_defined syms : ∀ cols,
  NoDup syms →
  Forall (λ s, is_Some (data !! s) ∧ s ∉ cols.*1) syms →
  is_Some (join_returns data index syms cols).
Proof.
  induction syms as [|s syms IH]; intros cols Hnd Hall; cbn; [by eexists|].
  apply NoDup_cons in Hnd as [Hs Hnd].
  apply Forall_cons in Hall as [[[df Hdf] Hnot] Hall].
  rewrite Hdf. cbn. rewrite bool_decide_eq_false_2 by done.
  apply IH; [done|]. eapply Forall_forall. intros s' Hs'.
  eapply Forall_forall in Hall as [? ?]; [|exact Hs']. split; [done|].
  rewrite fmap_app. cbn. set_solver.
Qed.

Lemma column_defined (cols : list (string * list Qc)) symbol :
  symbol ∈ cols.*1 → is_Some (column cols symbol).
Proof.
  unfold column. induction cols as [|[s c] cols IH]; cbn; intros Hin.
  - by apply elem_of_nil in Hin.
  - case_bool_decide as Hs; cbn; [by eexists|].
    apply IH. apply elem_of_cons in Hin as [->|Hin]; done.
Qed.

End BlendedReturn.

Lemma pct_change_from_keys prev df :
  (Rebalance.pct_change_from prev df).*1 = map timestamp df.
Proof. revert prev. induction df as [|b df IH]; intros prev; cbn; [done|]. by rewrite IH. Qed.

Lemma pct_change_keys df : (Rebalance.pct_change df).*1 = map timestamp df.
Proof. destruct df as [|b df]; cbn; [done|]. by rewrite pct_change_from_keys. Qed.

Lemma joined_cell_missing (ret : list (Z * option Qc)) date :
  date ∉ ret.*1 → Rebalance.joined_cell ret date = None.
Proof.
  unfold Rebalance.joined_cell. induction ret as [|[d r] ret IH]; cbn; intros Hnot; [done|].
  apply not_elem_of_cons in Hnot as [Hne Hnot].
  rewrite bool_decide_eq_false_2 by done. by apply IH.
Qed.

(** C4, as stated, fails: with B missing from the fetched data the blended
    return is not computed at all, and neither is the backtest. *)
Lemma failed_fetch_aborts_returns :
  "B" ∈ Rebalance.symbols late_listing_cfg
  ∧ failed_fetch_data !! "B" = None
  ∧ Rebalance.calculate_portfolio_returns late_listing_cfg failed_fetch_data half_half
    = None
  ∧ Rebalance.run_backtest late_listing_cfg failed_fetch_data half_half = None.
Proof. split_and!; by_computation. Qed.

(** C4 (amended).  [calculate_portfolio_returns] has no path for an
    instrument that is missing from [self.data]: the subscript raises and
    neither the table nor the backtest is produced.  The table is produced
    exactly when every configured symbol has data and a weight and no symbol
    is listed twice; what then counts as zero is the return of a present
    instrument on a calendar date for which it has no bar. *)
Theorem calculate_portfolio_returns_needs_every_symbol
    (cfg : Rebalance.Config) (data : gmap string (list PriceBar))
    (weights : gmap string Qc) :
  (∀ symbol, symbol ∈ Rebalance.symbols cfg → data !! symbol = None →
     Rebalance.calculate_portfolio_returns cfg data weights = None
     ∧ Rebalance.run_backtest cfg data weights = None)
  ∧ (is_Some (Rebalance.calculate_portfolio_returns cfg data weights)
     ↔ NoDup (Rebalance.symbols cfg)
       ∧ Forall (λ s, is_Some (data !! s) ∧ is_Some (weights !! s))
                (Rebalance.symbols cfg))
  ∧ (∀ df index i date, index !! i = Some date → date ∉ map timestamp df →
       Rebalance.return_column df index !! i = Some 0).
Proof.
  split; [|split].
  - intros symbol Hin Habs.
    assert (Rebalance.calculate_portfolio_returns cfg data weights = None) as Hcalc.
    { unfold Rebalance.calculate_portfolio_returns.
      by rewrite (join_returns_absent data _ _ [] symbol Hin Habs). }
    split; [done|]. unfold Rebalance.run_backtest. by rewrite Hcalc.
  - unfold Rebalance.calculate_portfolio_returns. split.
    + intros [frame Hframe].
      destruct (Rebalance.join_returns _ _ _ _) as [cols|] eqn:Hjoin; [|done].
      cbn in Hframe.
      destruct (mapM _ (Rebalance.symbols cfg)) as [terms|] eqn:Hterms; [|done].
      apply join_returns_Some in Hjoin as (_ & Hnd & Hall).
      split; [done|]. apply Forall_forall. intros s Hs. split.
      * by eapply Forall_forall in Hall as [? _].
      * assert (is_Some (mapM (λ symbol, col ← Rebalance.column cols symbol;
                                 w ← weights !! symbol;
                                 Some (map (λ r, r * w) col))
                              (Rebalance.symbols cfg))) as Hsome by (by eexists).
        apply mapM_is_Some in Hsome.
        eapply Forall_forall in Hsome; [|exact Hs]. cbn in Hsome.
        destruct (Rebalance.column cols s); [|by destruct Hsome].
        cbn in Hsome. destruct (weights !! s); [by eexists | by destruct Hsome].
    + intros [Hnd Hall].
      destruct (join_returns_defined data
                  (Calendar.date_range (Rebalance.start_date cfg) (Rebalance.end_date cfg))
                  (Rebalance.symbols cfg) [] Hnd) as [cols Hjoin].
      { eapply Forall_impl; [exact Hall|]. intros s [? _]. split; [done|].
        cbn. apply not_elem_of_nil. }
      rewrite Hjoin. cbn.
      apply join_returns_Some in Hjoin as (Hkeys & _ & _). cbn in Hkeys.
      assert (is_Some (mapM (λ symbol, col ← Rebalance.column cols symbol;
                               w ← weights !! symbol;
                               Some (map (λ r, r * w) col))
                            (Rebalance.symbols cfg))) as [terms ->]; [|by eexists].
      apply mapM_is_Some. apply Forall_forall. intros s Hs. cbn.
      destruct (column_defined cols s) as [col ->]; [by rewrite Hkeys|].
      eapply Forall_forall in Hall as [_ [w ->]]; [|exact Hs]. by eexists.
  - intros df index i date Hi Hnot. unfold Rebalance.return_column.
    change (map ?f index) with (f <$> index). rewrite list_lookup_fmap, Hi. cbn.
    rewrite joined_cell_missing; [done|]. by rewrite pct_change_keys.
Qed.

(** ** Signal preparation *)

Section SignalPreparation.

Import Strategy.

Lemma signal_of_spec (s l : Qc) :
  (signal_of s l = 1%Z ↔ l < s)
  ∧ (signal_of s l = (-1)%Z ↔ s < l)
  ∧ (signal_of s l = 0%Z ↔ s = l).
Proof.
  unfold signal_of.
  destruct (decide (l < s)) as [Hls|Hls], (decide (s < l)) as [Hsl|Hsl].
  - destruct (Qclt_not_le _ _ Hls). by apply Qclt_le_weak.
  - split_and!; split; try done.
    intros ->. by apply Qclt_not_eq in Hls.
  - split_and!; split; try done.
    intros ->. by apply Qclt_not_eq in Hsl.
  - split_and!; split; try done.
    intros _. apply Qcle_antisym; by apply Qcnot_lt_le.
Qed.

(** Rows of a table whose two optional columns are functions of the row
    number: when one of them is NaN below row [k] and both are defined from
    row [k] on, [dropna] removes exactly the first [k] rows. *)
Lemma dropna_drops_prefix (fs fl : nat → option Qc) (k : nat) (rows : list PriceBar) :
  ∀ a,
  (∀ i, (i < k)%nat → fs i = None ∨ fl i = None) →
  (∀ i, (k ≤ i < a + length rows)%nat → is_Some (fs i) ∧ is_Some (fl i)) →
  (dropna (zip rows (zip (map fs (seq a (length rows)))
                         (map fl (seq a (length rows)))))).*1
  = drop (k - a) rows.
Proof.
  induction rows as [|b rows IH]; intros a Hlow Hhigh; cbn.
  - by rewrite drop_nil.
  - destruct (decide (a < k)%nat) as [Hak|Hak].
    + replace (k - a)%nat with (S (k - S a)) by lia. cbn.
      rewrite <- (IH (S a)); [|done|intros i Hi; apply Hhigh; cbn; lia].
      unfold dropna. cbn.
      destruct (Hlow a Hak) as [-> | ->]; cbn; [done|].
      by destruct (fs a).
    + replace (k - a)%nat with 0%nat by lia. cbn.
      destruct (Hhigh a) as [[s Hs] [l Hl]]; [cbn; lia|].
      unfold dropna. cbn. rewrite Hs, Hl. cbn. f_equal.
      specialize (IH (S a) Hlow). unfold dropna in IH. rewrite IH.
      * replace (k - S a)%nat with 0%nat by lia. done.
      * intros i Hi. apply Hhigh. cbn. lia.
Qed.

Lemma strategy_rows_bars cfg rows :
  map bar (strategy_rows cfg rows) = drop (leading_rows cfg (length rows)) rows.
Proof.
  unfold strategy_rows, with_averages, rolling_mean.
  rewrite length_map.
  rewrite <- list_fmap_compose.
  pose proof (dropna_drops_prefix
    (λ i, if bool_decide (short_window cfg = 0 ∨ i + 1 < short_window cfg)%nat
          then None
          else Some (py_sum (take (short_window cfg)
                               (drop (i + 1 - short_window cfg) (map close rows)))
                     / qz (Z.of_nat (short_window cfg))))
    (λ i, if bool_decide (long_window cfg = 0 ∨ i + 1 < long_window cfg)%nat
          then None
          else Some (py_sum (take (long_window cfg)
                               (drop (i + 1 - long_window cfg) (map close rows)))
                     / qz (Z.of_nat (long_window cfg))))
    (leading_rows cfg (length rows)) rows 0%nat) as H.
  rewrite Nat.sub_0_r in H. rewrite <- H; [done|..].
  - intros i Hi. unfold leading_rows in Hi.
    case_bool_decide as Hz.
    + destruct Hz as [Hz|Hz].
      * left. rewrite bool_decide_eq_true_2; [done|by left].
      * right. rewrite bool_decide_eq_true_2; [done|by left].
    + destruct (decide (short_window cfg ≤ long_window cfg)%nat).
      * right. rewrite bool_decide_eq_true_2; [done|right; lia].
      * left. rewrite bool_decide_eq_true_2; [done|right; lia].
  - intros i Hi. unfold leading_rows in Hi.
    case_bool_decide as Hz; [cbn in Hi; lia|].
    rewrite !bool_decide_eq_false_2; [by split; eexists|lia..].
Qed.

End SignalPreparation.

(** The row-by-row content of a prepared table: row [j] is the row
    [j + leading_rows] of the table it was made from, with the means of the
    two windows that end there. *)
Lemma dropna_lookup (fs fl : nat → option Qc) (k : nat) (rows : list PriceBar) :
  ∀ a j x,
  (∀ i, (i < k)%nat → fs i = None ∨ fl i = None) →
  (∀ i, (k ≤ i < a + length rows)%nat → is_Some (fs i) ∧ is_Some (fl i)) →
  Strategy.dropna (zip rows (zip (map fs (seq a (length rows)))
                                 (map fl (seq a (length rows))))) !! j = Some x →
  rows !! (j + (k - a))%nat = Some x.1
  ∧ fs (a + j + (k - a))%nat = Some x.2.1
  ∧ fl (a + j + (k - a))%nat = Some x.2.2.
Proof.
  induction rows as [|b rows IH]; intros a j x Hlow Hhigh Hx; [done|].
  cbn in Hx. unfold Strategy.dropna in Hx. cbn in Hx.
  destruct (decide (a < k)%nat) as [Hak|Hak].
  - assert (fs a ≫= (λ s, fl a ≫= λ l, Some (b, (s, l))) = None) as Hnone.
    { destruct (Hlow a Hak) as [-> | ->]; [done|]. by destruct (fs a). }
    rewrite Hnone in Hx.
    destruct (IH (S a) j x Hlow) as (Hr & Hs & Hl);
      [intros i Hi; apply Hhigh; cbn; lia | exact Hx |].
    replace (k - a)%nat with (S (k - S a)) by lia.
    replace (j + S (k - S a))%nat with (S (j + (k - S a))) by lia.
    replace (a + j + S (k - S a))%nat with (S a + j + (k - S a))%nat by lia.
    done.
  - destruct (Hhigh a) as [[s Hs] [l Hl]]; [cbn; lia|].
    rewrite Hs, Hl in Hx. cbn in Hx.
    replace (k - a)%nat with 0%nat by lia.
    destruct j as [|j]; cbn in Hx.
    + injection Hx as <-. cbn. rewrite !Nat.add_0_r. done.
    + destruct (IH (S a) j x Hlow) as (Hr & Hs' & Hl');
        [intros i Hi; apply Hhigh; cbn; lia | exact Hx |].
      replace (k - S a)%nat with 0%nat in * by lia.
      rewrite Nat.add_0_r in Hr.
      split; [by replace (S j + 0)%nat with (S j) by lia|].
      by replace (a + S j + 0)%nat with (S a + j + 0)%nat by lia.
Qed.

Lemma occurrences_pos (symbol : string) (syms : list string) :
  symbol ∈ syms → (0 < occurrences symbol syms)%nat.
Proof.
  unfold occurrences. induction syms as [|x syms IH]; intros Hin.
  - by apply elem_of_nil in Hin.
  - rewrite filter_cons. case_decide as Hx; [cbn; lia|].
    apply elem_of_cons in Hin as [->|Hin]; [done|]. by apply IH.
Qed.

Section ApplyStrategy.

Import Strategy.

Variable cfg : Config.

Lemma strategy_rows_lookup rows j r :
  strategy_rows cfg rows !! j = Some r →
  let t := (j + leading_rows cfg (length rows))%nat in
  rows !! t = Some (bar r)
  ∧ (0 < short_window cfg ≤ t + 1)%nat
  ∧ (0 < long_window cfg ≤ t + 1)%nat
  ∧ SMA_short r = trailing_mean (short_window cfg) (map close rows) t
  ∧ SMA_long r = trailing_mean (long_window cfg) (map close rows) t
  ∧ Signal r = signal_of (SMA_short r) (SMA_long r).
Proof.
  unfold strategy_rows, with_averages, rolling_mean, trailing_mean.
  rewrite length_map.
  intros Hr. change (map ?f ?l) with (f <$> l) in Hr at 1.
  apply list_lookup_fmap_Some in Hr as (x & -> & Hx). cbn.
  apply (dropna_lookup _ _ (leading_rows cfg (length rows)) rows 0) in Hx
    as (Hrow & Hs & Hl).
  - rewrite Nat.sub_0_r in *. cbn in Hs, Hl.
    case_bool_decide as Hzs; [done|]. case_bool_decide as Hzl; [done|].
    injection Hs as Hs. injection Hl as Hl.
    split; [done|]. split; [lia|]. split; [lia|]. by rewrite <- Hs, <- Hl.
  - intros i Hi. unfold leading_rows in Hi.
    case_bool_decide as Hz.
    + destruct Hz as [Hz|Hz].
      * left. rewrite bool_decide_eq_true_2; [done|by left].
      * right. rewrite bool_decide_eq_true_2; [done|by left].
    + destruct (decide (short_window cfg ≤ long_window cfg)%nat).
      * right. rewrite bool_decide_eq_true_2; [done|right; lia].
      * left. rewrite bool_decide_eq_true_2; [done|right; lia].
  - intros i Hi. unfold leading_rows in Hi.
    case_bool_decide as Hz; [cbn in Hi; lia|].
    rewrite !bool_decide_eq_false_2; [by split; eexists|lia..].
Qed.

(** The rows that go are those with an average that is not defined. *)
Lemma leading_rows_undefined (n i : nat) :
  (i < leading_rows cfg n)%nat →
  (short_window cfg = 0 ∨ i + 1 < short_window cfg
   ∨ long_window cfg = 0 ∨ i + 1 < long_window cfg)%nat.
Proof. unfold leading_rows. case_bool_decide; lia. Qed.

(** The loop leaves every other entry of [self.data] alone. *)
Lemma apply_strategy_loop_frame syms : ∀ data data' s,
  apply_strategy_loop cfg syms data = Some data' →
  s ∉ syms → data' !! s = data !! s.
Proof.
  induction syms as [|x syms IH]; intros data data' s Hrun Hs; cbn in Hrun.
  - by injection Hrun as <-.
  - destruct (data !! x) as [df|]; [|done]. cbn in Hrun.
    apply not_elem_of_cons in Hs as [Hne Hs].
    rewrite (IH _ _ s Hrun Hs). by rewrite lookup_insert_ne.
Qed.

(** The loop completes only when every listed symbol has an entry. *)
Lemma apply_strategy_loop_present syms : ∀ data data' s,
  apply_strategy_loop cfg syms data = Some data' →
  s ∈ syms → is_Some (data !! s).
Proof.
  induction syms as [|x syms IH]; intros data data' s Hrun Hs; cbn in Hrun.
  - by apply elem_of_nil in Hs.
  - destruct (data !! x) as [df|] eqn:Hdf; [|done]. cbn in Hrun.
    destruct (decide (s = x)) as [->|Hne]; [by eexists|].
    apply elem_of_cons in Hs as [->|Hs]; [done|].
    specialize (IH _ _ s Hrun Hs). by rewrite lookup_insert_ne in IH.
Qed.

(** The loop passes over an entry once for every listing of its symbol. *)
Lemma apply_strategy_loop_passes syms : ∀ data,
  Forall (λ s, is_Some (data !! s)) syms →
  ∃ data', apply_strategy_loop cfg syms data = Some data'
    ∧ ∀ s df, data !! s = Some df →
        data' !! s = Some (after_passes cfg (occurrences s syms) df).
Proof.
  induction syms as [|x syms IH]; intros data Hall; cbn [apply_strategy_loop].
  - exists data. split; [done|]. by intros s df Hdf.
  - apply Forall_cons in Hall as [[dfx Hdfx] Hall]. rewrite Hdfx.
    cbn [mbind option_bind].
    destruct (IH (<[x := Prepared (strategy_rows cfg (bars_of dfx))]> data))
      as (data' & Hrun & Hin).
    { eapply Forall_impl; [exact Hall|]. intros s' Hs'. cbn in Hs'.
      rewrite lookup_insert. by case_decide. }
    exists data'. split; [done|]. intros s df Hdf.
    unfold occurrences. rewrite filter_cons. case_decide as Hx.
    + subst x. rewrite Hdf in Hdfx. injection Hdfx as <-.
      rewrite (Hin s (Prepared (strategy_rows cfg (bars_of df))))
        by apply lookup_insert_eq.
      unfold after_passes, occurrences. cbn [length].
      by rewrite Nat.iter_succ_r.
    + apply Hin. by rewrite lookup_insert_ne.
Qed.

(** Every pass cuts rows from the top of the table, and nothing else. *)
Lemma after_passes_suffix n df :
  ∃ m, bars_of (after_passes cfg n df) = drop m (bars_of df).
Proof.
  induction n as [|n [m IH]].
  - by exists 0%nat.
  - exists (m + leading_rows cfg (length (bars_of (after_passes cfg n df))))%nat.
    unfold after_passes in *. rewrite Nat.iter_succ. cbn [bars_of].
    rewrite strategy_rows_bars. rewrite IH at 2. by rewrite drop_drop.
Qed.

End ApplyStrategy.

(** C9.  When every configured instrument has a table, [apply_strategy]
    completes.  Afterwards the table of a configured instrument consists of
    the rows of the table the loop worked on (the fetched table, when the
    symbol is listed once; in any case the fetched table without some of its
    first rows) without its first [leading_rows] rows.  The rows
    that went are rows on which the short or the long window was not yet
    full (or empty), so one of the averages was undefined; on every row [t]
    that remains both windows are full, [SMA_short] is the mean of the
    [short_window] closes that end at [t], [SMA_long] the mean of the
    [long_window] closes that end at [t], and [Signal] is 1 exactly when
    [SMA_short > SMA_long], -1 exactly when [SMA_short < SMA_long] and 0
    exactly when the two are equal. *)
Theorem apply_strategy_signals
    (cfg : Strategy.Config) (data : gmap string Strategy.Frame) :
  Forall (λ s, is_Some (data !! s)) (Strategy.symbols cfg) →
  ∃ data',
    Strategy.apply_strategy cfg data = Some data'
    ∧ ∀ symbol df,
        symbol ∈ Strategy.symbols cfg →
        data !! symbol = Some df →
        let listed := occurrences symbol (Strategy.symbols cfg) in
        let base := Strategy.bars_of (after_passes cfg (listed - 1) df) in
        let dropped := leading_rows cfg (length base) in
        ∃ rows,
          data' !! symbol = Some (Strategy.Prepared rows)
          ∧ (listed = 1%nat → base = Strategy.bars_of df)
          ∧ (∃ m, base = drop m (Strategy.bars_of df))
          ∧ map Strategy.bar rows = drop dropped base
          ∧ (∀ i, (i < dropped)%nat →
               (Strategy.short_window cfg = 0 ∨ i + 1 < Strategy.short_window cfg
                ∨ Strategy.long_window cfg = 0 ∨ i + 1 < Strategy.long_window cfg)%nat)
          ∧ ∀ j r,
              rows !! j = Some r →
              let t := (j + dropped)%nat in
              base !! t = Some (Strategy.bar r)
              ∧ (0 < Strategy.short_window cfg ≤ t + 1)%nat
              ∧ (0 < Strategy.long_window cfg ≤ t + 1)%nat
              ∧ Strategy.SMA_short r
                = trailing_mean (Strategy.short_window cfg) (map close base) t
              ∧ Strategy.SMA_long r
                = trailing_mean (Strategy.long_window cfg) (map close base) t
              ∧ signal_consistent r.
Proof.
  intros Hall.
  destruct (apply_strategy_loop_passes cfg (Strategy.symbols cfg) data Hall)
    as (data' & Hrun & Hin).
  exists data'. split; [done|].
  intros symbol df Hsym Hdf listed base dropped.
  pose proof (occurrences_pos _ _ Hsym) as Hpos. fold listed in Hpos.
  exists (Strategy.strategy_rows cfg base). split_and!.
  - rewrite (Hin symbol df Hdf). fold listed.
    replace listed with (S (listed - 1)) at 1 by lia. done.
  - intros Hone. unfold base. by rewrite Hone.
  - apply after_passes_suffix.
  - apply strategy_rows_bars.
  - intros i Hi. by apply (leading_rows_undefined cfg (length base)).
  - intros j r Hr t.
    destruct (strategy_rows_lookup cfg base j r Hr)
      as (Hrow & [? ?] & [? ?] & Hs & Hl & Hsignal).
    split_and!; [done..|].
    unfold signal_consistent. rewrite Hsignal. apply signal_of_spec.
Qed.

Lemma apply_strategy_signals_witness :
  ∃ data',
    Strategy.apply_strategy crossover_cfg crossover_data = Some data'
    ∧ ∀ symbol df,
        symbol ∈ Strategy.symbols crossover_cfg →
        crossover_data !! symbol = Some df →
        let listed := occurrences symbol (Strategy.symbols crossover_cfg) in
        let base := Strategy.bars_of (after_passes crossover_cfg (listed - 1) df) in
        let dropped := leading_rows crossover_cfg (length base) in
        ∃ rows,
          data' !! symbol = Some (Strategy.Prepared rows)
          ∧ (listed = 1%nat → base = Strategy.bars_of df)
          ∧ (∃ m, base = drop m (Strategy.bars_of df))
          ∧ map Strategy.bar rows = drop dropped base
          ∧ (∀ i, (i < dropped)%nat →
               (Strategy.short_window crossover_cfg = 0
                ∨ i + 1 < Strategy.short_window crossover_cfg
                ∨ Strategy.long_window crossover_cfg = 0
                ∨ i + 1 < Strategy.long_window crossover_cfg)%nat)
          ∧ ∀ j r,
              rows !! j = Some r →
              let t := (j + dropped)%nat in
              base !! t = Some (Strategy.bar r)
              ∧ (0 < Strategy.short_window crossover_cfg ≤ t + 1)%nat
              ∧ (0 < Strategy.long_window crossover_cfg ≤ t + 1)%nat
              ∧ Strategy.SMA_short r
                = trailing_mean (Strategy.short_window crossover_cfg)
                    (map close base) t
              ∧ Strategy.SMA_long r
                = trailing_mean (Strategy.long_window crossover_cfg)
                    (map close base) t
              ∧ signal_consistent r.
Proof.
  apply (apply_strategy_signals crossover_cfg crossover_data).
  repeat constructor. by eexists.
Defined.

(** The prepared table of the sample: the first row is gone; the short
    average is the close, the long one the mean of the last two closes, and
    the signals are 1, 1, -1. *)
Example crossover_prepared :
  (λ data', (λ df, match df with
                   | Strategy.Prepared rows =>
                       map (λ r, (timestamp (Strategy.bar r), Strategy.SMA_short r,
                                  Strategy.SMA_long r, Strategy.Signal r)) rows
                   | Strategy.Fetched _ => []
                   end) <$> data' !! "A")
    <$> Strategy.apply_strategy crossover_cfg crossover_data
  = Some (Some [(day 19001, qz 100, qz 75, 1%Z);
                (day 19002, qz 150, qz 125, 1%Z);
                (day 19003, qz 100, qz 125, (-1)%Z)]).
Proof. by_computation. Qed.

(** ** The position ledger *)

Section Ledger.

Import Strategy.

Variables (cfg : Config) (data : gmap string Frame).

Lemma trade_buy date st symbol rows price :
  data !! symbol = Some (Prepared rows) →
  loc_signal_close date (Prepared rows) = Some (1%Z, price) →
  positions st !! symbol = Some 0 →
  let n := qz (Z.of_nat (length (symbols cfg))) in
  let quantity := portfolio_value st / n / price in
  trade cfg data date st symbol
  = Some {| portfolio_value :=
              portfolio_value st - portfolio_value st / n * trading_fee cfg;
            positions := <[symbol := quantity]> (positions st);
            daily_value := daily_value st + quantity * price |}.
Proof.
  intros Hdf Hloc Hpos n quantity. unfold trade. rewrite Hdf. cbn.
  assert (date ∈ frame_index (Prepared rows)) as Hin.
  { unfold frame_index. cbn. cbn in Hloc.
    destruct (List.find _ rows) as [r|] eqn:Hfind; [|done].
    apply find_some in Hfind as [Hr Hd]. apply bool_decide_eq_true_1 in Hd.
    rewrite <- Hd. apply list_elem_of_fmap. exists (bar r). split; [done|].
    apply list_elem_of_fmap. exists r. split; [done|]. by apply list_elem_of_In. }
  rewrite bool_decide_eq_true_2 by done.
  cbn in Hloc. cbn. rewrite Hloc. cbn. rewrite Hpos. cbn.
  rewrite (bool_decide_eq_true_2 (1 = 1)%Z) by done.
  rewrite (bool_decide_eq_true_2 (Q2Qc 0 = Q2Qc 0)) by done. cbn.
  rewrite lookup_insert_eq. done.
Qed.

Lemma trade_sell date st symbol rows price position :
  data !! symbol = Some (Prepared rows) →
  loc_signal_close date (Prepared rows) = Some ((-1)%Z, price) →
  positions st !! symbol = Some position →
  0 < position →
  trade cfg data date st symbol
  = Some {| portfolio_value :=
              portfolio_value st + position * price
              - position * price * trading_fee cfg;
            positions := <[symbol := 0]> (positions st);
            daily_value := daily_value st + 0 * price |}.
Proof.
  intros Hdf Hloc Hpos Hlt. unfold trade. rewrite Hdf. cbn.
  assert (date ∈ frame_index (Prepared rows)) as Hin.
  { unfold frame_index. cbn. cbn in Hloc.
    destruct (List.find _ rows) as [r|] eqn:Hfind; [|done].
    apply find_some in Hfind as [Hr Hd]. apply bool_decide_eq_true_1 in Hd.
    rewrite <- Hd. apply list_elem_of_fmap. exists (bar r). split; [done|].
    apply list_elem_of_fmap. exists r. split; [done|]. by apply list_elem_of_In. }
  rewrite bool_decide_eq_true_2 by done.
  cbn in Hloc. cbn. rewrite Hloc. cbn. rewrite Hpos. cbn.
  rewrite (bool_decide_eq_false_2 (-1 = 1)%Z) by done.
  rewrite (bool_decide_eq_true_2 (-1 = -1)%Z) by done.
  rewrite (bool_decide_eq_true_2 (0 < position)) by done. cbn.
  rewrite lookup_insert_eq. done.
Qed.

End Ledger.

(** What the ledger does on a purchase followed by a sale at the same close,
    for any fee.  The purchase computes the quantity from the notional
    [portfolio_value / len(symbols)] but takes only the fee from
    [portfolio_value] (line 77): the notional itself is never debited, while
    line 86 records [portfolio_value] plus the holdings, so the value
    recorded on the day of the purchase counts the notional twice.  The sale
    then credits the full proceeds to [portfolio_value] (lines 80-81). *)
Lemma buy_then_sell_records (fee : Qc) (t1 t2 : Z) :
  t1 ≠ t2 →
  let buy := signal_row t1 (qz 100) 1 in
  let sell := signal_row t2 (qz 100) (-1) in
  (∃ pos,
     Strategy.run_backtest (ledger_cfg fee) {[ "A" := Strategy.Prepared [buy] ]}
       (Strategy.initial_positions (ledger_cfg fee))
     = Some ([(t1, qz 10000 * (1 - fee) + qz 10000)], pos)
     ∧ pos !! "A" = Some (qz 100))
  ∧ (∃ pos,
       Strategy.run_backtest (ledger_cfg fee)
         {[ "A" := Strategy.Prepared [buy; sell] ]}
         (Strategy.initial_positions (ledger_cfg fee))
       = Some ([(t1, qz 10000 * (1 - fee) + qz 10000);
                (t2, qz 20000 * (1 - fee))], pos)
       ∧ pos !! "A" = Some 0).
Proof.
  intros Hne buy sell.
  assert (qz 10000 / qz (Z.of_nat 1) / qz 100 = qz 100) as Hquantity
    by by_computation.
  split.
  - eexists. unfold Strategy.run_backtest. cbn.
    rewrite lookup_singleton_eq. cbn.
    erewrite trade_buy;
      [| apply lookup_singleton_eq
       | cbn; rewrite bool_decide_eq_true_2 by done; reflexivity
       | apply lookup_insert_eq].
    cbn. rewrite Hquantity. split.
    + match goal with
      | |- Some ([(_, ?x)], _) = Some ([(_, ?y)], _) =>
          replace x with y by (qc_eq; field)
      end.
      reflexivity.
    + apply lookup_insert_eq.
  - eexists. unfold Strategy.run_backtest. cbn.
    rewrite lookup_singleton_eq. cbn.
    erewrite trade_buy;
      [| apply lookup_singleton_eq
       | cbn; rewrite bool_decide_eq_true_2 by done; reflexivity
       | apply lookup_insert_eq].
    cbn.
    erewrite trade_sell;
      [| apply lookup_singleton_eq
       | cbn; rewrite bool_decide_eq_false_2 by done;
         rewrite bool_decide_eq_true_2 by done; reflexivity
       | apply lookup_insert_eq
       | by_computation].
    cbn. rewrite Hquantity. split.
    + match goal with
      | |- Some ([(_, ?x1); (_, ?x2)], _) = Some ([(_, ?y1); (_, ?y2)], _) =>
          replace x1 with y1 by (qc_eq; field);
          replace x2 with y2 by (qc_eq; field)
      end.
      reflexivity.
    + apply lookup_insert_eq.
Qed.

(** C2.  The code does not do what the claim states.  On the input of the
    claim (one instrument, balance 10000, fee 0.001, a Buy signal at close
    100 followed by a Sell signal at close 100) the purchase opens the
    position of quantity 100, as claimed, but the value recorded after the
    sale is 19980 and not 10000 * 0.999 * 0.999 = 9980.01: the purchase never
    took the notional of 10000 out of [portfolio_value], so the value
    recorded on the day of the purchase is already 19990, and the sale adds
    the proceeds to a pool that still holds them. *)
Lemma sale_does_not_return_to_balance :
  (∃ history pos,
     Strategy.run_backtest (ledger_cfg (qf 1 1000))
       {[ "A" := Strategy.Prepared [signal_row 0 (qz 100) 1] ]}
       (Strategy.initial_positions (ledger_cfg (qf 1 1000)))
     = Some (history, pos)
     ∧ history = [(0%Z, qz 19990)]
     ∧ pos !! "A" = Some (qz 100))
  ∧ ∃ history pos,
      Strategy.run_backtest (ledger_cfg (qf 1 1000))
        {[ "A" := Strategy.Prepared [signal_row 0 (qz 100) 1;
                                     signal_row 86400000 (qz 100) (-1)] ]}
        (Strategy.initial_positions (ledger_cfg (qf 1 1000)))
      = Some (history, pos)
      ∧ history = [(0%Z, qz 19990); (86400000%Z, qz 19980)]
      ∧ pos !! "A" = Some 0
      ∧ qz 19980 ≠ qz 10000 * (1 - qf 1 1000) * (1 - qf 1 1000)
      ∧ qz 10000 * (1 - qf 1 1000) * (1 - qf 1 1000) = qf 998001 100.
Proof.
  split.
  - eexists _, _. split; [vm_compute; reflexivity|].
    split_and!; by_computation.
  - eexists _, _. split; [vm_compute; reflexivity|].
    split_and!; by_computation.
Qed.

(** ** The dates the signal engine visits *)

Lemma find_filter {A} (f : A → bool) (P : A → Prop) `{∀ x, Decision (P x)}
    (l : list A) :
  (∀ x, f x = true → P x) → List.find f (filter P l) = List.find f l.
Proof.
  intros Hf. induction l as [|x l IH]; [done|].
  rewrite filter_cons. destruct (decide (P x)) as [HP|HP]; cbn.
  - destruct (f x); [done | apply IH].
  - destruct (f x) eqn:Hx; [by destruct HP; apply Hf | apply IH].
Qed.

Section VisitedDates.

Import Strategy.

Variables (cfg : Config) (data : gmap string Frame) (dates : list Z).

Lemma frame_index_restrict df date :
  date ∈ dates →
  date ∈ frame_index (restrict_frame dates df) ↔ date ∈ frame_index df.
Proof.
  intros Hd. unfold frame_index. destruct df as [rows|rows]; cbn.
  - rewrite !list_elem_of_fmap. split.
    + intros (b & -> & Hb). apply list_elem_of_filter in Hb as [_ Hb]. eauto.
    + intros (b & -> & Hb). exists b. split; [done|].
      by apply list_elem_of_filter.
  - rewrite <- !list_fmap_compose, !list_elem_of_fmap. split.
    + intros (r & -> & Hr). apply list_elem_of_filter in Hr as [_ Hr]. eauto.
    + intros (r & -> & Hr). exists r. split; [done|].
      by apply list_elem_of_filter.
Qed.

Lemma loc_signal_close_restrict df date :
  date ∈ dates →
  loc_signal_close date (restrict_frame dates df) = loc_signal_close date df.
Proof.
  intros Hd. destruct df as [rows|rows]; cbn; [done|].
  rewrite find_filter; [done|].
  intros r Hr. apply bool_decide_eq_true_1 in Hr. by rewrite Hr.
Qed.

Lemma trade_restrict date st symbol :
  date ∈ dates →
  trade cfg (restrict_frame dates <$> data) date st symbol
  = trade cfg data date st symbol.
Proof.
  intros Hd. unfold trade. rewrite lookup_fmap.
  destruct (data !! symbol) as [df|]; cbn; [|done].
  rewrite (bool_decide_ext _ _ (frame_index_restrict df date Hd)).
  by rewrite loc_signal_close_restrict.
Qed.

Lemma trade_all_restrict date syms : ∀ st,
  date ∈ dates →
  trade_all (trade cfg (restrict_frame dates <$> data) date) syms st
  = trade_all (trade cfg data date) syms st.
Proof.
  induction syms as [|s syms IH]; intros st Hd; cbn; [done|].
  rewrite trade_restrict by done.
  destruct (trade cfg data date st s); cbn; [by apply IH | done].
Qed.

Lemma run_days_restrict visited : ∀ value pos,
  visited ⊆ dates →
  run_days cfg (restrict_frame dates <$> data) visited value pos
  = run_days cfg data visited value pos.
Proof.
  induction visited as [|date visited IH]; intros value pos Hsub; cbn; [done|].
  rewrite trade_all_restrict by set_solver.
  destruct (trade_all _ _ _) as [st|]; cbn; [|done].
  rewrite IH by set_solver. done.
Qed.

Lemma run_days_dates visited : ∀ value pos history pos',
  run_days cfg data visited value pos = Some (history, pos') →
  history.*1 = visited.
Proof.
  induction visited as [|date visited IH]; intros value pos history pos' H; cbn in H.
  - by injection H as <- <-.
  - destruct (trade_all _ _ _) as [st|]; cbn in H; [|done].
    destruct (run_days _ _ _ _ _) as [[h p]|] eqn:Hrest; cbn in H; [|done].
    injection H as <- <-. cbn. f_equal. by eapply IH.
Qed.

Lemma trade_defined date st symbol :
  symbol ∈ symbols cfg → ready cfg data (positions st) →
  ∃ st', trade cfg data date st symbol = Some st' ∧ ready cfg data (positions st').
Proof.
  intros Hs Hready.
  pose proof Hready as Hall.
  eapply Forall_forall in Hall as [(rows & Hrows & _) [position Hpos]]; [|exact Hs].
  unfold trade. rewrite Hrows. cbn.
  case_bool_decide as Hin; [|by eexists].
  destruct (List.find _ rows) as [r|] eqn:Hfind.
  2:{ exfalso. unfold frame_index in Hin. cbn in Hin.
      rewrite <- list_fmap_compose in Hin.
      apply list_elem_of_fmap in Hin as (r & Hr & Hrin).
      apply list_elem_of_In in Hrin.
      eapply find_none in Hfind; [|exact Hrin]. cbn in Hfind.
      by rewrite bool_decide_eq_true_2 in Hfind. }
  cbn. rewrite Hpos. cbn.
  assert (∀ x, ready cfg data (<[symbol := x]> (positions st))) as Hins.
  { intros x. eapply Forall_impl; [exact Hready|]. intros s [? ?]. split; [done|].
    rewrite lookup_insert. by case_decide. }
  destruct (bool_decide (Signal r = 1%Z) && bool_decide (position = 0)); cbn.
  - rewrite lookup_insert_eq. cbn. eexists. split; [done|]. cbn. apply Hins.
  - destruct (bool_decide (Signal r = (-1)%Z) && bool_decide (0 < position)); cbn.
    + rewrite lookup_insert_eq. cbn. eexists. split; [done|]. cbn. apply Hins.
    + rewrite Hpos. cbn. eexists. split; [done|]. done.
Qed.

Lemma trade_all_defined date syms : ∀ st,
  syms ⊆ symbols cfg → ready cfg data (positions st) →
  ∃ st', trade_all (trade cfg data date) syms st = Some st'
       ∧ ready cfg data (positions st').
Proof.
  induction syms as [|s syms IH]; intros st Hsub Hready; cbn; [by eexists|].
  destruct (trade_defined date st s) as (st1 & -> & Hready1); [set_solver|done|].
  cbn. apply IH; [set_solver|done].
Qed.

Lemma run_days_defined visited : ∀ value pos,
  ready cfg data pos → is_Some (run_days cfg data visited value pos).
Proof.
  induction visited as [|date visited IH]; intros value pos Hready; cbn; [by eexists|].
  destruct (trade_all_defined date (symbols cfg)
              {| portfolio_value := value; positions := pos; daily_value := 0 |})
    as (st & -> & Hst); [done..|].
  cbn. destruct (IH (portfolio_value st) (positions st) Hst) as [[h p] ->].
  by eexists.
Qed.

End VisitedDates.

Lemma filter_all {A} (P : A → Prop) `{∀ x, Decision (P x)} (l : list A) :
  Forall P l → filter P l = l.
Proof.
  induction 1 as [|x l HP _ IH]; [done|].
  rewrite filter_cons_True by done. by rewrite IH.
Qed.

Lemma frame_index_restrict_self df :
  Strategy.frame_index (restrict_frame (Strategy.frame_index df) df)
  = Strategy.frame_index df.
Proof.
  unfold Strategy.frame_index. destruct df as [rows|rows]; cbn.
  - f_equal. apply filter_all. apply Forall_forall. intros b Hb.
    apply list_elem_of_fmap. eauto.
  - f_equal. f_equal. apply filter_all. apply Forall_forall. intros r Hr.
    rewrite <- list_fmap_compose. apply list_elem_of_fmap. eauto.
Qed.

(** C10.  The signal engine walks the dates of the first configured
    instrument only: the value series has exactly one record per row of that
    instrument's table, in the order of the table, and the rows that other
    instruments have on other dates play no part, since the run without them
    yields the same records and leaves the same positions. *)
Theorem run_backtest_follows_first_index
    (cfg : Strategy.Config) (data : gmap string Strategy.Frame)
    (pos : gmap string Qc) (first : string) (rest : list string)
    (df : Strategy.Frame) :
  Strategy.symbols cfg = first :: rest →
  data !! first = Some df →
  ready cfg data pos →
  ∃ history pos',
    Strategy.run_backtest cfg data pos = Some (history, pos')
    ∧ history.*1 = Strategy.frame_index df
    ∧ Strategy.run_backtest cfg
        (restrict_frame (Strategy.frame_index df) <$> data) pos
      = Some (history, pos').
Proof.
  intros Hsyms Hdf Hready.
  destruct (run_days_defined cfg data (Strategy.frame_index df)
              (Strategy.initial_balance cfg) pos Hready) as [[history pos'] Hrun].
  exists history, pos'. unfold Strategy.run_backtest.
  rewrite Hsyms. cbn. rewrite lookup_fmap, Hdf. cbn.
  split; [done|]. split; [by eapply run_days_dates|].
  rewrite frame_index_restrict_self. by rewrite run_days_restrict.
Qed.

Lemma run_backtest_follows_first_index_witness :
  ∃ history pos',
    Strategy.run_backtest two_cfg two_data (Strategy.initial_positions two_cfg)
    = Some (history, pos')
    ∧ history.*1 = Strategy.frame_index two_A
    ∧ Strategy.run_backtest two_cfg
        (restrict_frame (Strategy.frame_index two_A) <$> two_data)
        (Strategy.initial_positions two_cfg)
      = Some (history, pos').
Proof.
  apply (run_backtest_follows_first_index two_cfg two_data
           (Strategy.initial_positions two_cfg) "A" ["B"] two_A).
  - reflexivity.
  - by_computation.
  - repeat constructor.
    + eexists. split; [vm_compute; reflexivity | by_computation].
    + by eexists.
    + eexists. split; [vm_compute; reflexivity | by_computation].
    + by eexists.
Defined.

(** On the sample, day 19002 has no record, and B's Sell signal of that day
    is never executed: B is still held after the run. *)
Example two_instruments_run :
  ∃ history pos',
    Strategy.run_backtest two_cfg two_data (Strategy.initial_positions two_cfg)
    = Some (history, pos')
    ∧ history.*1 = [day 19001; day 19003]
    ∧ pos' !! "A" = Some 0
    ∧ pos' !! "B" = Some (qf 9995 20).
Proof.
  eexists _, _. split; [vm_compute; reflexivity|].
  split_and!; by_computation.
Qed.

(** ** Compound annual growth rate *)

Lemma num_years_nonpositive (days : Z) :
  qz days / qz 365 ≤ 0 ↔ (days ≤ 0)%Z.
Proof.
  unfold Qcle, qz, Qc_of_Z, Qcdiv, Qcinv, Qcmult, Q2Qc. cbn [this].
  rewrite !Qred_correct. rewrite (Zle_Qle days 0).
  change (inject_Z 0) with 0%Q. change (inject_Z 365) with (365 # 1)%Q.
  generalize (inject_Z days). intros x.
  assert (/ (365 # 1) == 1 # 365)%Q as -> by reflexivity.
  split; intros H; lra.
Qed.

Lemma inverse_num_years (days : Z) :
  days ≠ 0%Z → 1 / (qz days / qz 365) = qz 365 / qz days.
Proof.
  intros Hd.
  assert (¬ (inject_Z days == 0)%Q) as Hq.
  { change 0%Q with (inject_Z 0). rewrite inject_Z_injective. done. }
  unfold qz, Qc_of_Z, Qcdiv, Qcinv, Qcmult, Q2Qc. apply Qc_is_canon. cbn [this].
  rewrite !Qred_correct. change (inject_Z 365) with (365 # 1)%Q.
  revert Hq. generalize (inject_Z days). intros x Hx. field. done.
Qed.

Lemma calculate_cagr_cases (pow : Qc → Qc → Qc) (cfg : Strategy.Config)
    (portfolio_df : list (Z * Qc)) (first_row end_row : Z * Qc) :
  head portfolio_df = Some first_row →
  list.last portfolio_df = Some end_row →
  let days := Calendar.timedelta_days end_row.1 first_row.1 in
  Strategy.calculate_cagr pow cfg portfolio_df
  = Some (if decide (days ≤ 0)%Z then Strategy.NotApplicable
          else Strategy.Percent
                 ((pow (end_row.2 / Strategy.initial_balance cfg)
                       (qz 365 / qz days) - 1) * qz 100)).
Proof.
  intros Hhead Hlast. cbn zeta.
  unfold Strategy.calculate_cagr. rewrite Hlast, Hhead. cbn.
  generalize (Calendar.timedelta_days end_row.1 first_row.1). intros days.
  destruct (decide (qz days / qz 365 ≤ 0)) as [Hle|Hgt].
  - apply (proj1 (num_years_nonpositive days)) in Hle.
    by destruct (decide (days ≤ 0)%Z).
  - destruct (decide (days ≤ 0)%Z) as [Hd|Hd].
    + destruct Hgt. by apply (proj2 (num_years_nonpositive days)).
    + rewrite inverse_num_years by lia. done.
Qed.

(** C7 (amended).  On a non-empty value series [calculate_cagr] always
    returns: the marker N/A exactly when the number of whole days between the
    first and the last timestamp ([Timedelta.days], which rounds down) is
    zero or negative, and otherwise the percentage
    [((final / initial_balance) ** (365 / days) - 1) * 100]. *)
Theorem calculate_cagr_whole_days
    (pow : Qc → Qc → Qc) (cfg : Strategy.Config) (portfolio_df : list (Z * Qc)) :
  portfolio_df ≠ [] →
  ∃ first_row end_row result,
    head portfolio_df = Some first_row
    ∧ list.last portfolio_df = Some end_row
    ∧ Strategy.calculate_cagr pow cfg portfolio_df = Some result
    ∧ let days := Calendar.timedelta_days end_row.1 first_row.1 in
      (result = Strategy.NotApplicable ↔ (days ≤ 0)%Z)
      ∧ ((0 < days)%Z →
         result = Strategy.Percent
                    ((pow (end_row.2 / Strategy.initial_balance cfg)
                          (qz 365 / qz days) - 1) * qz 100)).
Proof.
  intros Hne.
  destruct portfolio_df as [|first_row rest]; [done|].
  destruct (list.last (first_row :: rest)) as [end_row|] eqn:Hlast.
  2:{ by apply last_None in Hlast. }
  exists first_row, end_row.
  rewrite (calculate_cagr_cases pow cfg (first_row :: rest) first_row end_row
             eq_refl Hlast).
  cbn zeta. generalize (Calendar.timedelta_days end_row.1 first_row.1). intros days.
  eexists. split_and!; [done..| |].
  - destruct (decide (days ≤ 0)%Z); split; done.
  - intros Hpos. destruct (decide (days ≤ 0)%Z); [lia|done].
Qed.

Lemma calculate_cagr_whole_days_witness :
  ∃ first_row end_row result,
    head one_year_series = Some first_row
    ∧ list.last one_year_series = Some end_row
    ∧ Strategy.calculate_cagr sample_pow crossover_cfg one_year_series = Some result
    ∧ let days := Calendar.timedelta_days end_row.1 first_row.1 in
      (result = Strategy.NotApplicable ↔ (days ≤ 0)%Z)
      ∧ ((0 < days)%Z →
         result = Strategy.Percent
                    ((sample_pow
                        (end_row.2 / Strategy.initial_balance crossover_cfg)
                        (qz 365 / qz days) - 1) * qz 100)).
Proof.
  apply (calculate_cagr_whole_days sample_pow crossover_cfg one_year_series).
  discriminate.
Defined.

(** A series that doubles over exactly 365 days: the exponent is 1. *)
Example one_year_doubling (pow : Qc → Qc → Qc) :
  Strategy.calculate_cagr pow crossover_cfg one_year_series
  = Some (Strategy.Percent ((pow (qz 2) 1 - 1) * qz 100)).
Proof.
  rewrite (calculate_cagr_cases pow crossover_cfg one_year_series
             (day 19000, qz 10000) (day 19365, qz 20000) eq_refl eq_refl).
  cbn -[qz Qcdiv Qcminus Qcmult].
  assert (qz 20000 / qz 10000 = qz 2) as -> by by_computation.
  assert (Calendar.timedelta_days (day 19365) (day 19000) = 365%Z) as ->
    by reflexivity.
  assert (qz 365 / qz 365 = 1) as -> by by_computation.
  done.
Qed.

(** C7, as stated, fails: between the two records of the half-day series
    twelve hours elapse, a positive span, and the result is N/A whatever the
    power function computes. *)
Lemma half_day_span_is_not_applicable :
  (0 < (day 19000 + 43200000) - day 19000)%Z
  ∧ ∀ pow : Qc → Qc → Qc,
      Strategy.calculate_cagr pow crossover_cfg half_day_series
      = Some Strategy.NotApplicable.
Proof.
  split; [done|]. intros pow. vm_compute. reflexivity.
Qed.

(** ** Running an engine twice *)

Section CarriedWeights.

Import Rebalance.

Variables (cfg : Config) (data : gmap string (list PriceBar)).

Lemma calculate_portfolio_returns_index weights frame :
  calculate_portfolio_returns cfg data weights = Some frame →
  index frame = Calendar.date_range (start_date cfg) (end_date cfg).
Proof.
  unfold calculate_portfolio_returns. intros H.
  destruct (join_returns _ _ _ _); [|done]. cbn in H.
  destruct (mapM _ _); [|done]. cbn in H. by injection H as <-.
Qed.

Lemma loop_body_keeps_weights frame st st' i :
  index frame = Calendar.date_range (start_date cfg) (end_date cfg) →
  loop_body cfg data frame (Calendar.resample_MS_index (index frame)) st i = Some st' →
  executes_rebalance cfg data i = false →
  st_weights st' = st_weights st.
Proof.
  intros Hindex Hbody Hfree. unfold loop_body in Hbody.
  unfold executes_rebalance in Hfree. cbn zeta in Hfree. rewrite <- Hindex in Hfree.
  destruct (index frame !! i) as [date|]; [|done]. cbn in Hbody.
  destruct (Portfolio_Return frame !! i) as [daily_return|]; [|done]. cbn in Hbody.
  case_bool_decide as Hin; cbn in Hfree.
  - destruct (current_prices cfg data (index frame) date) as [prices|]; [|done].
    cbn in Hbody. destruct (existsb isnan prices.*2); [|done].
    by injection Hbody as <-.
  - destruct (set_value i daily_return (st_values st)); [|done].
    cbn in Hbody. by injection Hbody as <-.
Qed.

Lemma run_loop_keeps_weights frame rows : ∀ st st',
  index frame = Calendar.date_range (start_date cfg) (end_date cfg) →
  run_loop (loop_body cfg data frame (Calendar.resample_MS_index (index frame)))
    rows st = Some st' →
  Forall (λ i, executes_rebalance cfg data i = false) rows →
  st_weights st' = st_weights st.
Proof.
  induction rows as [|i rows IH]; intros st st' Hindex Hrun Hfree; cbn in Hrun.
  - by injection Hrun as <-.
  - apply Forall_cons in Hfree as [Hi Hfree].
    destruct (loop_body _ _ _ _ st i) as [st1|] eqn:Hbody; [|done]. cbn in Hrun.
    rewrite (IH st1 st' Hindex Hrun Hfree).
    by eapply loop_body_keeps_weights.
Qed.

Lemma run_backtest_keeps_weights weights frame weights' :
  rebalance_free cfg data →
  run_backtest cfg data weights = Some (frame, weights') →
  weights' = weights.
Proof.
  intros Hfree Hrun. unfold run_backtest in Hrun.
  destruct (calculate_portfolio_returns cfg data weights) as [rf|] eqn:Hrf; [|done].
  cbn in Hrun. pose proof (calculate_portfolio_returns_index _ _ Hrf) as Hindex.
  destruct (run_loop _ _ _) as [st|] eqn:Hloop; [|done]. cbn in Hrun.
  injection Hrun as _ <-.
  eapply run_loop_keeps_weights in Hloop; [done..|].
  unfold rebalance_free in Hfree. cbn zeta in Hfree. by rewrite Hindex.
Qed.

End CarriedWeights.

(** *** What a second retrieval does to [self.data] *)

Section RebalanceFetch.

Import Rebalance.

Variables (exchange : string → option (list PriceBar)) (cfg : Config).

Lemma fetch_loop_lookup syms : ∀ data symbol,
  fold_left (fetch_one exchange cfg) syms data !! symbol
  = match exchange symbol with
    | Some ohlcv =>
        if bool_decide (symbol ∈ syms ∧ ohlcv ≠ [])
        then Some (date_filter (start_date cfg) (end_date cfg) ohlcv)
        else data !! symbol
    | None => data !! symbol
    end.
Proof.
  induction syms as [|s syms IH]; intros data symbol; cbn.
  - destruct (exchange symbol); [|done].
    rewrite bool_decide_eq_false_2; [done|]. intros [H _]. by apply elem_of_nil in H.
  - rewrite IH. destruct (exchange symbol) as [ohlcv|] eqn:Hex.
    + destruct (decide (ohlcv = [])) as [->|Hne].
      * rewrite !bool_decide_eq_false_2 by (by intros [_ ?]).
        unfold fetch_one. destruct (decide (s = symbol)) as [->|Hs].
        -- rewrite Hex. by rewrite bool_decide_eq_true_2.
        -- destruct (exchange s) as [o|]; [|done].
           case_bool_decide; [done|]. by rewrite lookup_insert_ne.
      * destruct (decide (symbol ∈ syms)) as [Hin|Hin].
        -- rewrite !bool_decide_eq_true_2; [done|split; [set_solver|done]|done].
        -- rewrite (bool_decide_eq_false_2 (symbol ∈ syms ∧ _)) by (by intros [? _]).
           unfold fetch_one. destruct (decide (s = symbol)) as [->|Hs].
           ++ rewrite Hex. rewrite bool_decide_eq_false_2 by done.
              rewrite lookup_insert_eq.
              rewrite bool_decide_eq_true_2; [done|split; [set_solver|done]].
           ++ rewrite bool_decide_eq_false_2 by (intros [? _]; set_solver).
              destruct (exchange s) as [o|]; [|done].
              case_bool_decide; [done|]. by rewrite lookup_insert_ne.
    + unfold fetch_one. destruct (decide (s = symbol)) as [->|Hs].
      * by rewrite Hex.
      * destruct (exchange s) as [o|]; [|done].
        case_bool_decide; [done|]. by rewrite lookup_insert_ne.
Qed.

(** Retrieving again, with the same deliveries, changes nothing. *)
Lemma fetch_data_idempotent data :
  fetch_data exchange cfg (fetch_data exchange cfg data)
  = fetch_data exchange cfg data.
Proof.
  apply map_eq. intros symbol. unfold fetch_data.
  rewrite (fetch_loop_lookup _ (fold_left _ _ _)).
  destruct (exchange symbol) as [ohlcv|] eqn:Hex; [|done].
  case_bool_decide as Hin; [|done].
  by rewrite fetch_loop_lookup, Hex, bool_decide_eq_true_2.
Qed.

End RebalanceFetch.

Section StrategyFetch.

Import Strategy.

Variables (exchange : string → option (list PriceBar)) (cfg : Config).

Lemma strategy_fetch_loop_lookup syms : ∀ data symbol,
  fold_left (fetch_one exchange cfg) syms data !! symbol
  = match exchange symbol with
    | Some ohlcv =>
        if bool_decide (symbol ∈ syms)
        then Some (Fetched match start_date cfg, end_date cfg with
                           | Some s, Some e => date_filter s e ohlcv
                           | _, _ => ohlcv
                           end)
        else data !! symbol
    | None => data !! symbol
    end.
Proof.
  induction syms as [|s syms IH]; intros data symbol; cbn.
  - destruct (exchange symbol); [|done].
    rewrite bool_decide_eq_false_2; [done|]. apply not_elem_of_nil.
  - rewrite IH. unfold fetch_one.
    destruct (exchange symbol) as [ohlcv|] eqn:Hex.
    + destruct (decide (symbol ∈ syms)) as [Hin|Hin].
      * rewrite !bool_decide_eq_true_2; [done|set_solver|done].
      * rewrite (bool_decide_eq_false_2 (symbol ∈ syms)) by done.
        destruct (decide (s = symbol)) as [->|Hs].
        -- rewrite Hex, lookup_insert_eq.
           rewrite bool_decide_eq_true_2; [done|set_solver].
        -- rewrite bool_decide_eq_false_2 by set_solver.
           destruct (exchange s); [|done]. by rewrite lookup_insert_ne.
    + destruct (decide (s = symbol)) as [->|Hs].
      * by rewrite Hex.
      * destruct (exchange s); [|done]. by rewrite lookup_insert_ne.
Qed.

(** On a new object, [apply_strategy] completes only when every configured
    symbol was delivered; the tables it rewrote are then all replaced by the
    next retrieval. *)
Lemma refetch_after_apply_strategy data1 :
  apply_strategy cfg (fetch_data exchange cfg ∅) = Some data1 →
  fetch_data exchange cfg data1 = fetch_data exchange cfg ∅.
Proof.
  intros Happly. apply map_eq. intros symbol. unfold fetch_data.
  rewrite !strategy_fetch_loop_lookup.
  assert (symbol ∉ symbols cfg → data1 !! symbol = None) as Hout.
  { intros Hin.
    rewrite (apply_strategy_loop_frame cfg _ _ _ symbol Happly Hin).
    unfold fetch_data. rewrite strategy_fetch_loop_lookup.
    rewrite bool_decide_eq_false_2 by done. by destruct (exchange symbol). }
  destruct (exchange symbol) as [ohlcv|] eqn:Hex.
  - case_bool_decide as Hin; [done|]. by rewrite Hout.
  - rewrite lookup_empty.
    destruct (decide (symbol ∈ symbols cfg)) as [Hin|Hin]; [|by apply Hout].
    destruct (apply_strategy_loop_present cfg _ _ _ symbol Happly Hin) as [df Hdf].
    unfold fetch_data in Hdf. by rewrite strategy_fetch_loop_lookup, Hex in Hdf.
Qed.

End StrategyFetch.

(** *** What a run does to [self.positions] *)

Section CarriedPositions.

Import Strategy.

Variables (cfg : Config) (data : gmap string Frame).

Lemma trade_keys date st st' symbol :
  trade cfg data date st symbol = Some st' →
  dom (positions st') =@{gset string} dom (positions st).
Proof.
  unfold trade. intros H.
  destruct (data !! symbol) as [df|]; [|done]. cbn in H.
  case_bool_decide; [|by injection H as <-].
  destruct (loc_signal_close date df) as [[signal price]|]; [|done]. cbn in H.
  destruct (positions st !! symbol) as [position|] eqn:Hpos; [|done]. cbn in H.
  destruct (bool_decide (signal = 1%Z) && bool_decide (position = 0)).
  { cbn in H. rewrite lookup_insert_eq in H. cbn in H. injection H as <-. cbn.
    apply dom_insert_lookup_L. by eexists. }
  destruct (bool_decide (signal = (-1)%Z) && bool_decide (0 < position)).
  { cbn in H. rewrite lookup_insert_eq in H. cbn in H. injection H as <-. cbn.
    apply dom_insert_lookup_L. by eexists. }
  rewrite Hpos in H. cbn in H. by injection H as <-.
Qed.

Lemma trade_all_keys date syms : ∀ st st',
  trade_all (trade cfg data date) syms st = Some st' →
  dom (positions st') =@{gset string} dom (positions st).
Proof.
  induction syms as [|s syms IH]; intros st st' H; cbn in H.
  - by injection H as <-.
  - destruct (trade cfg data date st s) as [st1|] eqn:Hs; [|done]. cbn in H.
    rewrite (IH _ _ H). by eapply trade_keys.
Qed.

Lemma run_days_keys dates : ∀ value pos history pos',
  run_days cfg data dates value pos = Some (history, pos') →
  dom pos' =@{gset string} dom pos.
Proof.
  induction dates as [|date dates IH]; intros value pos history pos' H; cbn in H.
  - by injection H as _ <-.
  - destruct (trade_all _ _ _) as [st|] eqn:Hst; [|done]. cbn in H.
    destruct (run_days cfg data dates _ _) as [[h p]|] eqn:Hrest; [|done].
    cbn in H. injection H as _ <-.
    rewrite (IH _ _ _ _ Hrest). by apply trade_all_keys in Hst.
Qed.

Lemma run_backtest_keys pos history pos' :
  run_backtest cfg data pos = Some (history, pos') →
  dom pos' =@{gset string} dom pos.
Proof.
  unfold run_backtest. intros H.
  destruct (head (symbols cfg)); [|done]. cbn in H.
  destruct (data !! _); [|done]. cbn in H. by eapply run_days_keys.
Qed.

End CarriedPositions.

Lemma flat_eq (pos1 pos2 : gmap string Qc) :
  flat pos1 → flat pos2 → dom pos1 =@{gset string} dom pos2 → pos1 = pos2.
Proof.
  intros H1 H2 Hdom. apply map_eq. intros s.
  destruct (pos1 !! s) as [q1|] eqn:Hq1.
  - assert (s ∈ dom pos2) as [q2 Hq2]%elem_of_dom.
    { rewrite <- Hdom. apply elem_of_dom. by eexists. }
    rewrite Hq2. by rewrite (H1 s q1 Hq1), (H2 s q2 Hq2).
  - symmetry. apply not_elem_of_dom. rewrite <- Hdom. by apply not_elem_of_dom.
Qed.

Lemma initial_positions_flat cfg : flat (Strategy.initial_positions cfg).
Proof.
  intros s q Hq. unfold Strategy.initial_positions in Hq.
  apply elem_of_list_to_map_2 in Hq.
  apply list_elem_of_fmap in Hq as (x & Hx & _). by injection Hx as _ ->.
Qed.

Lemma pipeline_steps pow cfg data pos report data1 pos1 :
  Strategy.pipeline pow cfg data pos = Some (report, (data1, pos1)) →
  Strategy.apply_strategy cfg data = Some data1
  ∧ ∃ history, Strategy.run_backtest cfg data1 pos = Some (history, pos1).
Proof.
  unfold Strategy.pipeline. intros H.
  destruct (Strategy.apply_strategy cfg data) as [d1|]; [|done]. cbn in H.
  destruct (Strategy.run_backtest cfg d1 pos) as [[history p1]|] eqn:Hrun; [|done].
  cbn in H.
  destruct (Strategy.calculate_cagr pow cfg history); [|done]. cbn in H.
  destruct (Strategy.calculate_total_return cfg history); [|done]. cbn in H.
  injection H as _ <- <-. split; [done|]. by exists history.
Qed.

(** C6 (amended).  A run of the script is a function of what the exchange
    delivers, of the configuration and of the state the backtester object
    is in when the run starts: [self.data] and [self.weights] for the
    rebalancing engine, [self.data] and [self.positions] for the signal
    engine.  A second run of the script on the same object starts from the
    state the first run left.  With the same deliveries it returns the same
    value series and metrics, and leaves the same state,
    - for the rebalancing engine when no row of the first run executed a
      rebalance: the weights are then the ones the run started with, and
      the second retrieval stores the tables the first one stored;
    - for the signal engine, on a new object, when the first run ended with
      every position closed: the positions are then the initial ones, and
      the second retrieval replaces every table that [apply_strategy]
      rewrote. *)
Theorem rerun_agrees_when_state_restored (pow : Qc → Qc → Qc) :
  (∀ exchange cfg data weights report data1 weights1,
     Rebalance.script exchange cfg data weights = Some (report, (data1, weights1)) →
     rebalance_free cfg data1 →
     Rebalance.script exchange cfg data1 weights1
     = Some (report, (data1, weights1)))
  ∧ (∀ exchange cfg report data1 pos1,
       Strategy.script pow exchange cfg ∅ (Strategy.initial_positions cfg)
       = Some (report, (data1, pos1)) →
       flat pos1 →
       Strategy.script pow exchange cfg data1 pos1
       = Some (report, (data1, pos1))).
Proof.
  split.
  - intros exchange cfg data weights report data1 weights1 Hrun Hfree.
    unfold Rebalance.script in *. cbn zeta in *.
    destruct (Rebalance.pipeline cfg _ weights) as [[rep w]|] eqn:Hp; [|done].
    cbn in Hrun. injection Hrun as -> <- ->.
    rewrite fetch_data_idempotent.
    assert (weights1 = weights) as ->; [|by rewrite Hp].
    unfold Rebalance.pipeline in Hp.
    destruct (Rebalance.run_backtest cfg _ weights) as [[frame w]|] eqn:Hbt;
      [|done].
    cbn in Hp. destruct (Rebalance.calculate_total_return cfg frame); [|done].
    cbn in Hp. injection Hp as _ <-.
    by eapply run_backtest_keeps_weights.
  - intros exchange cfg report data1 pos1 Hrun Hflat.
    unfold Strategy.script in *.
    destruct (pipeline_steps _ _ _ _ _ _ _ Hrun) as (Happly & history & Hbt).
    rewrite (refetch_after_apply_strategy exchange cfg data1 Happly).
    assert (pos1 = Strategy.initial_positions cfg) as ->; [|done].
    apply flat_eq; [done|apply initial_positions_flat|].
    by eapply run_backtest_keys.
Qed.

Lemma rerun_agrees_when_state_restored_witness :
  (∃ report data1 weights1,
     Rebalance.script (delivering late_listing_data) late_listing_cfg ∅ half_half
     = Some (report, (data1, weights1))
     ∧ rebalance_free late_listing_cfg data1
     ∧ Rebalance.script (delivering late_listing_data) late_listing_cfg
         data1 weights1
       = Some (report, (data1, weights1)))
  ∧ (∃ report data1 pos1,
       Strategy.script sample_pow (delivering_frames crossover_data)
         crossover_cfg ∅ (Strategy.initial_positions crossover_cfg)
       = Some (report, (data1, pos1))
       ∧ flat pos1
       ∧ Strategy.script sample_pow (delivering_frames crossover_data)
           crossover_cfg data1 pos1
         = Some (report, (data1, pos1))).
Proof.
  destruct (rerun_agrees_when_state_restored sample_pow) as [Hr Hs]. split.
  - destruct (Rebalance.script (delivering late_listing_data) late_listing_cfg
                ∅ half_half) as [[report [data1 weights1]]|] eqn:Hrun;
      [|vm_compute in Hrun; discriminate].
    assert (rebalance_free late_listing_cfg data1) as Hfree.
    { assert (data1 = late_listing_data) as ->; [|by_computation].
      unfold Rebalance.script in Hrun. cbn zeta in Hrun.
      destruct (Rebalance.pipeline _ _ _) as [[rep w]|]; [|done].
      cbn in Hrun. injection Hrun as _ <- _. by_computation. }
    exists report, data1, weights1. split; [done|]. split; [done|].
    by apply (Hr _ _ ∅ half_half).
  - destruct (Strategy.script sample_pow (delivering_frames crossover_data)
                crossover_cfg ∅ (Strategy.initial_positions crossover_cfg))
      as [[report [data1 pos1]]|] eqn:Hrun; [|vm_compute in Hrun; discriminate].
    assert (flat pos1) as Hflat.
    { assert (pos1 = Strategy.initial_positions crossover_cfg) as ->;
        [|apply initial_positions_flat].
      assert (snd <$> (snd <$> Strategy.script sample_pow
                (delivering_frames crossover_data) crossover_cfg ∅
                (Strategy.initial_positions crossover_cfg))
              = Some (Strategy.initial_positions crossover_cfg)) as H
        by by_computation.
      rewrite Hrun in H. cbn in H. by injection H. }
    exists report, data1, pos1. split; [done|]. split; [done|].
    by apply Hs.
Defined.

(** C6, as stated, fails for both engines.  The rebalancing engine leaves the
    weights of the executed rebalance (4/5 and 1/5 for one half each) in
    [self.weights], and the second run of the script blends the returns with
    them.  The signal engine leaves the open position in [self.positions],
    and the second run of the script does not buy again.  And when
    [apply_strategy] and [run_backtest] are called again without a new
    retrieval, [apply_strategy] works on the tables it has already cut, so
    that even with every position closed the second series is shorter. *)
Lemma second_run_differs :
  (∃ report1 data1 weights1 report2 state2,
     Rebalance.script (delivering doubling_data) doubling_cfg ∅ half_half
     = Some (report1, (data1, weights1))
     ∧ Rebalance.script (delivering doubling_data) doubling_cfg data1 weights1
       = Some (report2, state2)
     ∧ Rebalance.Portfolio_Value (Rebalance.report_frame report1)
       = [qz 9985; qf 29955 2]
     ∧ Rebalance.Portfolio_Value (Rebalance.report_frame report2)
       = [qz 9985; qz 17973]
     ∧ Rebalance.report_total_return report1 ≠ Rebalance.report_total_return report2)
  ∧ (∀ pow : Qc → Qc → Qc,
     ∃ report1 data1 pos1 report2 state2,
       Strategy.script pow (delivering_frames rising_data) crossover_cfg ∅
         (Strategy.initial_positions crossover_cfg)
       = Some (report1, (data1, pos1))
       ∧ Strategy.script pow (delivering_frames rising_data) crossover_cfg
           data1 pos1
         = Some (report2, state2)
       ∧ Strategy.report_values report1
         = [(day 19001, qz 19990); (day 19002, qz 24990)]
       ∧ Strategy.report_values report2
         = [(day 19001, qz 20000); (day 19002, qz 25000)]
       ∧ Strategy.report_total_return report1
         ≠ Strategy.report_total_return report2)
  ∧ (∀ pow : Qc → Qc → Qc,
     ∃ report1 data1 pos1 report2 state2,
       Strategy.script pow (delivering_frames crossover_data) crossover_cfg ∅
         (Strategy.initial_positions crossover_cfg)
       = Some (report1, (data1, pos1))
       ∧ pos1 = Strategy.initial_positions crossover_cfg
       ∧ Strategy.pipeline pow crossover_cfg data1 pos1 = Some (report2, state2)
       ∧ (Strategy.report_values report1).*1 = [day 19001; day 19002; day 19003]
       ∧ (Strategy.report_values report2).*1 = [day 19002; day 19003]).
Proof.
  split_and!.
  - eexists _, _, _, _, _. split; [vm_compute; reflexivity|].
    split; [vm_compute; reflexivity|].
    split_and!; by_computation.
  - intros pow. eexists _, _, _, _, _. split; [vm_compute; reflexivity|].
    split; [vm_compute; reflexivity|].
    split_and!; by_computation.
  - intros pow. eexists _, _, _, _, _. split; [vm_compute; reflexivity|].
    split; [vm_compute; reflexivity|].
    split; [vm_compute; reflexivity|].
    split_and!; by_computation.
Qed.
